(** * CoachScraper: a shallow embedding of [src/CoachScraper.py]

    The development follows the four layers of the program:
    [fetch_html] (bounded retries over an HTTP client),
    [scrape_generic_table] (selector-driven record extraction),
    [parse_site] (one site: fetch, extract every [_TABLE] block, build a
    data frame) and [scrape_all] / [save_csv] (the orchestrator).

    Python exceptions are modelled by an error monad that also records the
    observable effects (requests, sleeps, console messages) in order. The
    HTTP client and the HTML/CSS library are external: the first appears as
    the sequence of outcomes of the successive requests, the second as an
    interface ([HtmlLib]) with the four primitives the program calls. The
    case mappings of [str], which follow the Unicode tables, are an
    interface too ([CaseMap]). *)

From stdpp Require Import base numbers list strings gmap fin_maps sets.
From Stdlib Require Import Ascii String ZArith.

Local Open Scope string_scope.
Local Open Scope list_scope.
Local Open Scope Z_scope.

(** ** Python string primitives

    A Python [str] is represented by its UTF-8 encoding, one [ascii] per
    byte. Comparing, searching and removing an ASCII pattern act on the
    bytes as Python acts on the code points; white space is recognised by
    the encodings of the code points [str.isspace] accepts. *)

Module PyStr.

Definition is_upper (c : ascii) : bool :=
  let n := nat_of_ascii c in (65 <=? n)%nat && (n <=? 90)%nat.

Definition is_lower (c : ascii) : bool :=
  let n := nat_of_ascii c in (97 <=? n)%nat && (n <=? 122)%nat.

Definition lower_char (c : ascii) : ascii :=
  if is_upper c then ascii_of_nat (nat_of_ascii c + 32) else c.

Definition upper_char (c : ascii) : ascii :=
  if is_lower c then ascii_of_nat (nat_of_ascii c - 32) else c.

(** A string of code points below 128. *)
Fixpoint is_ascii (s : string) : bool :=
  match s with
  | EmptyString => true
  | String c s' => (nat_of_ascii c <? 128)%nat && is_ascii s'
  end.

(** [str.lower()] on a string of ASCII characters. *)
Fixpoint ascii_lower (s : string) : string :=
  match s with
  | EmptyString => EmptyString
  | String c s' => String (lower_char c) (ascii_lower s')
  end.

(** [str.capitalize()] on a string of ASCII characters: the first character
    upper-cased, the rest lower-cased. *)
Definition ascii_capitalize (s : string) : string :=
  match s with
  | EmptyString => EmptyString
  | String c s' => String (upper_char c) (ascii_lower s')
  end.

(** [str.endswith(suffix)] *)
Definition endswith (s suffix : string) : bool :=
  let n := String.length s in
  let k := String.length suffix in
  (k <=? n)%nat && String.eqb (substring (n - k) k s) suffix.

(** [s[:-k]] for a positive [k]. *)
Definition drop_last (k : nat) (s : string) : string :=
  substring 0 (String.length s - k) s.

(** The encodings of the code points [str.strip()] removes: U+0009-000D,
    U+001C-001F, U+0020, U+0085, U+00A0, U+1680, U+2000-200A, U+2028,
    U+2029, U+202F, U+205F and U+3000. *)
Definition blanks : list (list ascii) :=
  List.map (List.map ascii_of_nat)
    [ [9]; [10]; [11]; [12]; [13]; [28]; [29]; [30]; [31]; [32];
      [194; 133]; [194; 160]; [225; 154; 128];
      [226; 128; 128]; [226; 128; 129]; [226; 128; 130]; [226; 128; 131];
      [226; 128; 132]; [226; 128; 133]; [226; 128; 134]; [226; 128; 135];
      [226; 128; 136]; [226; 128; 137]; [226; 128; 138];
      [226; 128; 168]; [226; 128; 169]; [226; 128; 175];
      [226; 129; 159]; [227; 128; 128] ]%nat.

(** What follows [w] in [l], when [l] starts with [w]. *)
Fixpoint starts_with (w l : list ascii) : option (list ascii) :=
  match w, l with
  | [], _ => Some l
  | a :: w', b :: l' => if Ascii.eqb a b then starts_with w' l' else None
  | _ :: _, [] => None
  end.

(** What follows the first of [patterns] that [l] starts with. *)
Fixpoint first_match (patterns : list (list ascii)) (l : list ascii)
    : option (list ascii) :=
  match patterns with
  | [] => None
  | w :: rest =>
      match starts_with w l with
      | Some l' => Some l'
      | None => first_match rest l
      end
  end.

(** Drops leading patterns for as long as one matches; [fuel] bounds the
    number of patterns dropped, and the length of [l] is enough. *)
Fixpoint drop_leading (patterns : list (list ascii)) (fuel : nat) (l : list ascii)
    : list ascii :=
  match fuel with
  | O => l
  | S fuel' =>
      match first_match patterns l with
      | Some l' => drop_leading patterns fuel' l'
      | None => l
      end
  end.

Definition lstrip_bytes (l : list ascii) : list ascii :=
  drop_leading blanks (List.length l) l.

Definition rstrip_bytes (l : list ascii) : list ascii :=
  List.rev (drop_leading (List.map (@List.rev ascii) blanks) (List.length l) (List.rev l)).

(** [str.strip()] *)
Definition strip (s : string) : string :=
  string_of_list_ascii (rstrip_bytes (lstrip_bytes (list_ascii_of_string s))).

(** [str.replace(old, '')] for a non-empty [old]: every non-overlapping
    occurrence, scanning from the left, is removed. [skip] counts the
    characters of the current occurrence that are still to be dropped. *)
Fixpoint remove_from (old : string) (skip : nat) (s : string) : string :=
  match s with
  | EmptyString => EmptyString
  | String c s' =>
      match skip with
      | S k => remove_from old k s'
      | O =>
          if String.prefix old s
          then remove_from old (String.length old - 1) s'
          else String c (remove_from old 0 s')
      end
  end.

Definition remove_all (old s : string) : string :=
  match old with
  | EmptyString => s
  | _ => remove_from old 0 s
  end.

End PyStr.

(** The case mappings of Python's [str], which follow the Unicode character
    database: [str.lower()] and [str.capitalize()]. On strings of ASCII
    characters they are the functions above. *)
Class CaseMap : Type := {
  str_lower : string → string;
  str_capitalize : string → string;
  str_lower_ascii :
    ∀ s, PyStr.is_ascii s = true → str_lower s = PyStr.ascii_lower s;
  str_capitalize_ascii :
    ∀ s, PyStr.is_ascii s = true → str_capitalize s = PyStr.ascii_capitalize s
}.

(** ** Exceptions, effects and the run monad *)

(** The [Exception] subclasses the program can meet. [LibraryError] stands
    for an exception of another class raised inside a library call. *)
Inductive exn : Type :=
| IndexError
| KeyError
| ValueError
| TypeError
| LibraryError (what : string).

Inductive result (A : Type) : Type :=
| Ret (a : A)
| Raise (e : exn).
Arguments Ret {A} a.
Arguments Raise {A} e.

(** Console messages, one constructor per [print] of the source. *)
Inductive message : Type :=
| MsgInvalidUrl
| MsgPermanentError (url : string) (status : Z)
| MsgTemporaryError (url : string) (status : Z) (delay_seconds : Z)
| MsgNetworkError (url : string) (delay_seconds : Z)
| MsgMaxRetries (max_retries : Z) (url : string)
| MsgNeedHandler (school : string)
| MsgTableNotFound (selector : string) (table_index : Z)
| MsgCompleted (school : string)
| MsgNoData (school : string)
| MsgErrorScraping (school : string) (e : exn)
| MsgDone (scraped : nat)
| MsgNoResults
| MsgSaved (rows : nat) (out_path : string).

Inductive event : Type :=
| EvGet (url : string)
| EvSleep (seconds : Z)
| EvPrint (m : message).

Record Run (A : Type) : Type := MkRun { trace : list event; outcome : result A }.
Arguments MkRun {A} trace outcome.
Arguments trace {A} r.
Arguments outcome {A} r.

Definition run_bind {A B : Type} (f : A → Run B) (m : Run A) : Run B :=
  match outcome m with
  | Ret a => MkRun (trace m ++ trace (f a)) (outcome (f a))
  | Raise e => MkRun (trace m) (Raise e)
  end.

Global Instance Run_ret : MRet Run := λ A a, MkRun [] (Ret a).
Global Instance Run_bind : MBind Run := λ A B f m, run_bind f m.

Definition raise {A : Type} (e : exn) : Run A := MkRun [] (Raise e).
Definition emit (ev : event) : Run unit := MkRun [ev] (Ret tt).
Definition print (m : message) : Run unit := emit (EvPrint m).

(** [try: body except Exception as e: handler e] *)
Definition try_except {A : Type} (body : Run A) (handler : exn → Run A) : Run A :=
  match outcome body with
  | Ret a => body
  | Raise e => MkRun (trace body ++ trace (handler e)) (outcome (handler e))
  end.

(** [time.sleep(seconds)]: a negative duration is a [ValueError]. *)
Definition time_sleep (seconds : Z) : Run unit :=
  if seconds <? 0 then raise ValueError else emit (EvSleep seconds).

(** ** Fetcher *)

(** What one pass through the [try] block of [fetch_html] can do:
    - [Returned text]: [requests.get] answered and [raise_for_status] let the
      response through, so [resp.text] is returned;
    - [HTTPError status]: [raise_for_status] raised for a response with that
      [resp.status_code] (the library does so for 4xx and 5xx responses);
    - [RequestException]: any other [requests.RequestException]
      (DNS failure, timeout, connection reset, ...);
    - [Uncaught e]: an exception that neither [except] clause matches. *)
Inductive attempt_outcome : Type :=
| Returned (text : string)
| HTTPError (status : Z)
| RequestException
| Uncaught (e : exn).

(** The network seen from one call of [fetch_html]: the outcome of the
    [k]-th request it issues, [k] counted from zero. *)
Definition responses := nat → attempt_outcome.

Section Fetch.
Variable url : string.
Variable net : responses.
Variables max_retries delay_seconds : Z.

(** Lines 70-76: what follows a retryable failure. [None] means that the
    loop goes on to its next iteration. *)
Definition after_failure (attempt : Z) : Run (option string) :=
  if attempt <? max_retries - 1
  then time_sleep delay_seconds;; mret None
  else print (MsgMaxRetries max_retries url);; mret (Some EmptyString).

(** The body of [for attempt in range(max_retries)], lines 46-76. *)
Definition fetch_attempt (attempt : Z) : Run (option string) :=
  emit (EvGet url);;
  match net (Z.to_nat attempt) with
  | Returned text => mret (Some text)
  | HTTPError status =>
      if (400 <=? status) && (status <? 500)
      then print (MsgPermanentError url status);; mret (Some EmptyString)
      else print (MsgTemporaryError url status delay_seconds);;
           after_failure attempt
  | RequestException =>
      print (MsgNetworkError url delay_seconds);;
      after_failure attempt
  | Uncaught e => raise e
  end.

(** The loop, with the final [return] of line 79 once the range is exhausted. *)
Fixpoint fetch_loop (attempts : list Z) : Run string :=
  match attempts with
  | [] => mret EmptyString
  | attempt :: rest =>
      r ← fetch_attempt attempt;
      match r with
      | Some html => mret html
      | None => fetch_loop rest
      end
  end.
End Fetch.

(** [fetch_html(url, max_retries, delay_seconds)]; [url] is [None] when the
    caller found no ["url"] key. *)
Definition fetch_html (net : responses) (url : option string)
    (max_retries delay_seconds : Z) : Run string :=
  match url with
  | None | Some EmptyString => print MsgInvalidUrl;; mret EmptyString
  | Some u => fetch_loop u net max_retries delay_seconds (seqZ 0 max_retries)
  end.

(** The defaults of the signature: [max_retries = 3], [delay_seconds = 5]. *)
Definition fetch_html_default (net : responses) (url : option string) : Run string :=
  fetch_html net url 3 5.

(** Projections of a trace. *)
Definition is_print (ev : event) : bool :=
  match ev with EvPrint _ => true | _ => false end.

(** The requests and sleeps of a trace, in order, without the messages. *)
Definition actions (t : list event) : list event :=
  List.filter (λ ev, negb (is_print ev)) t.

Definition attempts_made (t : list event) : nat :=
  List.length (List.filter (λ ev, match ev with EvGet _ => true | _ => false end) t).

Definition sleeps (t : list event) : list Z :=
  omap (λ ev, match ev with EvSleep d => Some d | _ => None end) t.

(** [n] requests to [url] with a sleep of [delay] between consecutive ones. *)
Fixpoint retry_pattern (url : string) (delay : Z) (n : nat) : list event :=
  match n with
  | O => []
  | S O => [EvGet url]
  | S n' => EvGet url :: EvSleep delay :: retry_pattern url delay n'
  end.

(** The outcomes the spec calls retryable: a server error or a transport failure. *)
Definition retryable (o : attempt_outcome) : Prop :=
  match o with
  | HTTPError status => 500 ≤ status
  | RequestException => True
  | _ => False
  end.

(** ** The HTML/CSS library, as the program uses it *)

Class HtmlLib (node : Type) : Type := {
  (** [BeautifulSoup(html, "html.parser")] *)
  parse_html : string → node;
  (** [tag.select(selector)]: every match below [tag], in document order *)
  select : node → string → list node;
  (** [tag.get(name)]: the attribute's value, [None] when the tag has none
      (values are strings; the lists the library builds for class-like
      attributes are not told apart) *)
  get_attr : node → string → option string;
  (** [tag.get_text(strip=True)] *)
  get_text_strip : node → string
}.

(** [tag.select_one(selector)]: the first match, or [None]. *)
Definition select_one `{HtmlLib node} (tag : node) (selector : string) : option node :=
  head (select tag selector).

(** ** Configuration (the YAML document, once loaded) *)

(** A value of [field_selectors]: a bare selector string, or a mapping read
    with [.get('selector')] and [.get('attribute')]. *)
Inductive field_config : Type :=
| Selector (selector : string)
| Descriptor (selector : string) (attribute : option string).

Record table_config : Type := {
  table_container_selector : string;
  wrapper_index : option Z;
  row_selector : string;
  field_selectors : list (string * field_config)
}.

Inductive config_value : Type :=
| CNull
| CStr (s : string)
| CTable (t : table_config).

(** A site's mapping, in the order of its keys. *)
Definition site_config := list (string * config_value).

(** [dict.get(key)] on a mapping kept as an association list. *)
Fixpoint dict_get {V : Type} (key : string) (d : list (string * V)) : option V :=
  match d with
  | [] => None
  | (k, v) :: d' => if String.eqb k key then Some v else dict_get key d'
  end.

(** [key in dict] *)
Definition dict_has {V : Type} (key : string) (d : list (string * V)) : bool :=
  match dict_get key d with Some _ => true | None => false end.

(** [config.get("url")]; the data model types [url] as a string, so any
    other value is read as absent. *)
Definition config_url (config : site_config) : option string :=
  match dict_get "url" config with
  | Some (CStr u) => Some u
  | _ => None
  end.

(** ** Record extractor *)

(** A field's value: a string or Python's [None]. *)
Abbreviation value := (option string).

(** Python's reading of an index [i] into a sequence of length [n]: a
    negative index counts from the end; [None] when out of range. *)
Definition py_index (n : nat) (i : Z) : option nat :=
  let j := if i <? 0 then Z.of_nat n + i else i in
  if (j <? 0) || (Z.of_nat n <=? j) then None else Some (Z.to_nat j).

(** [l[i]] *)
Definition py_getitem {A : Type} (l : list A) (i : Z) : Run A :=
  match py_index (List.length l) i ≫= (l !!.) with
  | Some x => mret x
  | None => raise IndexError
  end.

(** [if attribute_name:] holds for a name that is neither [None] nor empty. *)
Definition truthy (name : option string) : option string :=
  match name with
  | Some EmptyString | None => None
  | Some a => Some a
  end.

(** Lines 141-148: the selector and the attribute name of a field. *)
Definition selector_string (fc : field_config) : string :=
  match fc with
  | Descriptor selector _ => selector
  | Selector selector => selector
  end.

Definition attribute_name (fc : field_config) : option string :=
  match fc with
  | Descriptor _ attribute => attribute
  | Selector _ => None
  end.

Section Extractor.
Context `{HtmlLib node} {T : CaseMap}.

(** Lines 141-166: the value of one field in one row. *)
Definition field_value (row : node) (field_name : string) (fc : field_config) : value :=
  match select_one row (selector_string fc) with
  | None => None
  | Some tag =>
      match truthy (attribute_name fc) with
      | Some a => get_attr tag a
      | None =>
          match String.eqb field_name "email", get_attr tag "href" with
          | true, Some href => Some (PyStr.strip (PyStr.remove_all "mailto:" href))
          | _, _ => Some (get_text_strip tag)
          end
      end
  end.

(** Line 168: [member[field_name.lower()] = value]. *)
Definition store_field (row : node) (member : gmap string value)
    (field : string * field_config) : gmap string value :=
  <[str_lower (fst field) := field_value row (fst field) (snd field)]> member.

(** Lines 135-168: the record of one row. *)
Definition extract_row (config : table_config) (row : node) : gmap string value :=
  foldl (store_field row) ∅ (field_selectors config).

Definition scrape_generic_table (soup : node) (config : table_config)
    : Run (list (gmap string value)) :=
  let all_tables := select soup (table_container_selector config) in
  let table_index := default 0 (wrapper_index config) in
  if match all_tables with [] => true | _ => false end
     || (Z.of_nat (List.length all_tables) <=? table_index)
  then print (MsgTableNotFound (table_container_selector config) table_index);;
       mret []
  else
    table ← py_getitem all_tables table_index;
    let all_staff_rows := select table (row_selector config) in
    mret (extract_row config <$> all_staff_rows).
End Extractor.

(** ** Data frames (the fragment of pandas the program calls) *)

Inductive cell : Type :=
| Null
| Text (s : string)
| NaN
| Int (z : Z).

Definition cell_of (v : value) : cell :=
  match v with
  | None => Null
  | Some s => Text s
  end.

Record DataFrame : Type := {
  columns : gset string;
  index : list Z;
  rows : list (gmap string cell)
}.

(** A row over the columns [cols]; a cell the row lacks is [NaN]. *)
Definition reindex (cols : gset string) (r : gmap string cell) : gmap string cell :=
  set_to_map (λ c, (c, default NaN (r !! c))) cols.

Module pd.
(** [pd.DataFrame()] *)
Definition empty : DataFrame := {| columns := ∅; index := []; rows := [] |}.

(** [pd.DataFrame(records)] for a list of dicts *)
Definition of_records (data : list (gmap string value)) : DataFrame :=
  let cols : gset string := ⋃ (dom <$> data) in
  {| columns := cols;
     index := seqZ 0 (Z.of_nat (List.length data));
     rows := (λ r, reindex cols (cell_of <$> r)) <$> data |}.

(** [df[name] = scalar] *)
Definition set_column (name : string) (c : cell) (df : DataFrame) : DataFrame :=
  {| columns := columns df ∪ {[name]};
     index := index df;
     rows := (λ r, <[name := c]> r) <$> rows df |}.

(** [pd.concat(frames)], row-wise; an empty list is a [ValueError]. *)
Definition concat (frames : list DataFrame) : Run DataFrame :=
  match frames with
  | [] => raise ValueError
  | _ =>
      let cols : gset string := ⋃ (columns <$> frames) in
      mret {| columns := cols;
              index := mjoin (index <$> frames);
              rows := mjoin ((λ df, reindex cols <$> rows df) <$> frames) |}
  end.

(** [df.reset_index()]: the old index becomes the column ["index"], or
    ["level_0"] when ["index"] is taken; a taken name is a [ValueError]. *)
Definition reset_index (df : DataFrame) : Run DataFrame :=
  let name := if bool_decide ("index" ∈ columns df) then "level_0" else "index" in
  if bool_decide (name ∈ columns df) then raise ValueError
  else mret {| columns := columns df ∪ {[name]};
               index := seqZ 0 (Z.of_nat (List.length (rows df)));
               rows := zip_with (λ i r, <[name := Int i]> r) (index df) (rows df) |}.

(** [df.drop(columns=name)] *)
Definition drop (name : string) (df : DataFrame) : Run DataFrame :=
  if bool_decide (name ∈ columns df)
  then mret {| columns := columns df ∖ {[name]};
               index := index df;
               rows := delete name <$> rows df |}
  else raise KeyError.
End pd.

(** ** Site parser *)

(** The network: for each URL, the outcomes of the successive requests. *)
Definition network := string → responses.

(** [fetch_html(url)] as [parse_site] calls it. *)
Definition fetch (net : network) (url : option string) : Run string :=
  match url with
  | Some u => fetch_html_default (net u) url
  | None => fetch_html_default (λ _, RequestException) url
  end.

Section SiteParser.
Context `{HtmlLib node} {T : CaseMap}.

(** Lines 95-99: one entry of the site's mapping. A [_TABLE] key bound to
    something that is not a mapping fails on
    [config['table_container_selector']]. *)
Definition scrape_entry (soup : node) (staff_data : list (list (gmap string value)))
    (entry : string * config_value) : Run (list (list (gmap string value))) :=
  let '(table_key, config) := entry in
  if PyStr.endswith table_key "_TABLE" then
    match config with
    | CTable t =>
        data ← scrape_generic_table soup t;
        let staff_type := str_capitalize (PyStr.drop_last 6 table_key) in
        mret (staff_data ++ [(λ d, <["staff_type" := Some staff_type]> d) <$> data])
    | _ => raise TypeError
    end
  else mret staff_data.

(** [for table_key, config in config.items()], lines 94-99. *)
Fixpoint scrape_entries (soup : node) (staff_data : list (list (gmap string value)))
    (entries : site_config) : Run (list (list (gmap string value))) :=
  match entries with
  | [] => mret staff_data
  | entry :: rest =>
      staff_data' ← scrape_entry soup staff_data entry;
      scrape_entries soup staff_data' rest
  end.

Definition parse_site (net : network) (school : string) (config : site_config)
    : Run DataFrame :=
  if dict_has "handler" config then
    print (MsgNeedHandler school);; mret pd.empty
  else
    html ← fetch net (config_url config);
    if String.eqb html EmptyString then mret pd.empty
    else
      let soup := parse_html html in
      staff_data ← scrape_entries soup [] config;
      let frames := pd.set_column "school" (Text school) <$> (pd.of_records <$> staff_data) in
      if (1 <? List.length frames)%nat then
        df ← pd.concat frames;
        df' ← pd.reset_index df;
        pd.drop "index" df'
      else py_getitem frames 0.
End SiteParser.

(** ** Orchestrator *)

Section Orchestrator.
Context `{HtmlLib node} {T : CaseMap}.
Variable net : network.

(** [future.result()]: the value the task returned, or the exception it
    raised, raised again in the collecting thread. What the task printed
    and requested happened on its worker thread. *)
Definition future_result {A : Type} (task : Run A) : Run A :=
  MkRun [] (outcome task).

(** Lines 184-194: the body of [for future in as_completed(futures)].
    [parse_site] returns a frame on every path, so the [else] branch of
    [if data is not None] is never taken. *)
Definition collect (results : list DataFrame) (site : string * site_config)
    : Run (list DataFrame) :=
  let '(school, conf) := site in
  try_except
    (data ← future_result (parse_site net school conf);
     print (MsgCompleted school);;
     mret (results ++ [data]))
    (λ e, print (MsgErrorScraping school e);; mret results).

Fixpoint collect_all (results : list DataFrame) (completed : list (string * site_config))
    : Run (list DataFrame) :=
  match completed with
  | [] => mret results
  | site :: rest =>
      results' ← collect results site;
      collect_all results' rest
  end.

(** [scrape_all]: [completed] is the order in which the futures complete,
    some arrangement of the configured sites; [results] is [self.results]
    before the call, and the value returned is [self.results] after it. *)
Definition scrape_all (completed : list (string * site_config)) (results : list DataFrame)
    : Run (list DataFrame) :=
  results' ← collect_all results completed;
  print (MsgDone (List.length results'));;
  mret results'.

(** [save_csv]: the frame written to [out_path], if any. *)
Definition save_csv (results : list DataFrame) (out_path : string)
    : Run (option DataFrame) :=
  match results with
  | [] => print MsgNoResults;; mret None
  | _ =>
      df ← pd.concat results;
      print (MsgSaved (List.length (rows df)) out_path);;
      mret (Some df)
  end.

(** The main program: [__init__] leaves [self.results] empty. *)
Definition main (completed : list (string * site_config)) : Run (option DataFrame) :=
  results ← scrape_all completed [];
  save_csv results "wbb_coaches.csv".
End Orchestrator.

(** ** A small concrete HTML library, for running the program on examples *)

Module Sample.

(** An element: tag name, attributes, own text, children. *)
#[warnings="-register-all"] Inductive element : Type :=
| Element (name : string) (attrs : list (string * string)) (text : string)
          (children : list element).

Definition name_of (e : element) : string :=
  match e with Element n _ _ _ => n end.

(** Everything below [e], in document order. *)
Fixpoint descendants (e : element) : list element :=
  match e with
  | Element _ _ _ children =>
      (fix below (cs : list element) : list element :=
         match cs with
         | [] => []
         | c :: cs' => c :: descendants c ++ below cs'
         end) children
  end.

(** Selectors are tag names. Pages are given by a table from content to
    document, which plays the parser. *)
Definition html (pages : string → element) : HtmlLib element := {|
  parse_html := pages;
  select := λ e selector,
    List.filter (λ d, String.eqb (name_of d) selector) (descendants e);
  get_attr := λ e a, match e with Element _ attrs _ _ => dict_get a attrs end;
  get_text_strip := λ e, match e with Element _ _ text _ => PyStr.strip text end
|}.

(** One staff table with two rows; the second row has no [a] element. *)
Definition jane : element :=
  Element "tr" [] EmptyString
    [ Element "h3" [] " Jane Doe " [];
      Element "a" [("href", "mailto:jane@doe.edu")] "Email Jane" [];
      Element "img" [("src", "/img/jane.png")] EmptyString [] ].

Definition joe : element :=
  Element "tr" [] EmptyString [ Element "h3" [] "Joe Roe" []; Element "img" [] EmptyString [] ].

Definition coaches : element := Element "table" [] EmptyString [jane; joe].
Definition support : element :=
  Element "table" [] EmptyString [ Element "tr" [] EmptyString [ Element "h3" [] "Ann Poe" [] ] ].
Definition page : element := Element "html" [] EmptyString [coaches; support].

Definition lib : HtmlLib element := html (λ _, page).

(** The case mappings on ASCII strings, which is all the examples use. *)
Definition text : CaseMap := {|
  str_lower := PyStr.ascii_lower;
  str_capitalize := PyStr.ascii_capitalize;
  str_lower_ascii := λ _ _, eq_refl;
  str_capitalize_ascii := λ _ _, eq_refl
|}.

Definition fields : list (string * field_config) :=
  [ ("Name", Selector "h3");
    ("email", Selector "a");
    ("image_url", Descriptor "img" (Some "src")) ].

Definition table (i : option Z) : table_config :=
  {| table_container_selector := "table"; wrapper_index := i;
     row_selector := "tr"; field_selectors := fields |}.

(** A network that answers every request with the same page. *)
Definition up : network := λ _ _, Returned "<html>...</html>".

(** 503 twice, then the page. *)
Definition flaky : responses := λ k,
  match k with
  | O | S O => HTTPError 503
  | _ => Returned "<html>...</html>"
  end.

Definition not_found : responses := λ _, HTTPError 404.
Definition down : responses := λ _, RequestException.

(** Two field names that differ in case only; no [h4] exists on the page. *)
Definition clash : table_config :=
  {| table_container_selector := "table"; wrapper_index := None;
     row_selector := "tr";
     field_selectors := [("Name", Selector "h4"); ("name", Selector "h3")] |}.

(** A row whose link carries a second address in its [cc] parameter. *)
Definition copied : element :=
  Element "tr" [] EmptyString
    [ Element "a" [("href", "mailto:jane@doe.edu?cc=mailto:joe@doe.edu")] "Write" [] ].

(** Five sites; the third one has a page but no [_TABLE] block. *)
Definition site (u : string) : site_config :=
  [("url", CStr u); ("COACHES_TABLE", CTable (table None))].

Definition sites : list (string * site_config) :=
  [ ("Alpha", site "http://alpha");
    ("Beta", site "http://beta");
    ("Gamma", [("url", CStr "http://gamma")]);
    ("Delta", site "http://delta");
    ("Epsilon", site "http://epsilon") ].

(** One order in which the five futures may complete: the reverse of
    the order of submission. *)
Definition finished : list (string * site_config) :=
  [ ("Epsilon", site "http://epsilon");
    ("Delta", site "http://delta");
    ("Gamma", [("url", CStr "http://gamma")]);
    ("Beta", site "http://beta");
    ("Alpha", site "http://alpha") ].

End Sample.

(** ** Statements of the specification that the code is compared with *)

(** The e-mail rule in the specification's words: a leading [mailto:] is
    stripped and the rest trimmed. *)
Definition email_by_prefix (href : string) : string :=
  PyStr.strip
    (if String.prefix "mailto:" href
     then substring 7 (String.length href - 7) href
     else href).

(** "For a field in text mode named [email] whose element has an [href],
    the value is the [href] with the prefix stripped and trimmed." *)
Definition email_prefix_rule `{HtmlLib node} (row : node) (fc : field_config) : Prop :=
  truthy (attribute_name fc) = None →
  ∀ tag href,
    select_one row (selector_string fc) = Some tag →
    get_attr tag "href" = Some href →
    field_value row "email" fc = Some (email_by_prefix href).



(** The frames of the sites whose task returned, in completion order. *)
Definition succeeded `{HtmlLib node} {T : CaseMap} (net : network)
    (completed : list (string * site_config)) : list DataFrame :=
  omap (λ site, match outcome (parse_site net site.1 site.2) with
                | Ret df => Some df
                | Raise _ => None
                end) completed.

(** What the collecting loop prints for one completed future. *)
Definition report `{HtmlLib node} {T : CaseMap}
    (net : network) (site : string * site_config) : event :=
  EvPrint match outcome (parse_site net site.1 site.2) with
          | Ret _ => MsgCompleted site.1
          | Raise e => MsgErrorScraping site.1 e
          end.

(** ** Further sample sites and networks *)

Module Cases.

(** A site with two table blocks. *)
Definition two_blocks : site_config :=
  [ ("url", CStr "http://state");
    ("COACHES_TABLE", CTable (Sample.table None));
    ("SUPPORT_STAFF_TABLE", CTable (Sample.table (Some 1))) ].

(** A site with two table blocks, the first of which has a field [Index]. *)
Definition indexed : site_config :=
  [ ("url", CStr "http://state");
    ("COACHES_TABLE",
     CTable {| table_container_selector := "table";
               wrapper_index := None;
               row_selector := "tr";
               field_selectors := [("Index", Selector "h3")] |});
    ("SUPPORT_STAFF_TABLE", CTable (Sample.table (Some 1))) ].

(** Two sites the generic engine does not fetch: one with a handler marker,
    one with an empty URL. *)
Definition skipped : list (string * site_config) :=
  [ ("Alpha", [("handler", CStr "alpha_scraper")]);
    ("Beta", [("url", CStr EmptyString)]) ].


End Cases.

(** * Verification *)

(** ** String primitives *)

Lemma starts_with_Some (w l rest : list ascii) :
  PyStr.starts_with w l = Some rest ↔ l = w ++ rest.
Proof.
  revert l. induction w as [|a w IH]; intros l; simpl.
  - split; [by intros [= ->]|by intros ->].
  - destruct l as [|b l]; [by split|].
    destruct (Ascii.eqb_spec a b) as [->|Hne].
    + rewrite IH. split; [by intros ->|by intros [= ->]].
    + split; [done|]. intros [= -> _]. done.
Qed.

Lemma first_match_Some (patterns : list (list ascii)) (l rest : list ascii) :
  PyStr.first_match patterns l = Some rest →
  ∃ w, w ∈ patterns ∧ l = w ++ rest.
Proof.
  induction patterns as [|w patterns IH]; simpl; [done|].
  destruct (PyStr.starts_with w l) as [l'|] eqn:Hw.
  - intros [= ->]. exists w. split; [by left|]. by apply starts_with_Some.
  - intros (w' & Hin & Hl)%IH. exists w'. split; [by right|done].
Qed.

Lemma first_match_None (patterns : list (list ascii)) (l : list ascii) :
  PyStr.first_match patterns l = None ↔ ∀ w, w ∈ patterns → ¬ w `prefix_of` l.
Proof.
  induction patterns as [|w patterns IH]; simpl.
  - split; [|done]. intros _ w Hw. by apply elem_of_nil in Hw.
  - destruct (PyStr.starts_with w l) as [l'|] eqn:Hw.
    + split; [done|]. intros Hnone. exfalso. apply (Hnone w); [by left|].
      exists l'. by apply starts_with_Some.
    + rewrite IH. split.
      * intros Hrest w' [->|Hin]%elem_of_cons; [|by apply Hrest].
        intros [k Hk]. apply starts_with_Some in Hk. congruence.
      * intros Hall w' Hin. apply Hall. by right.
Qed.

Lemma drop_leading_split (patterns : list (list ascii)) (fuel : nat) (l : list ascii) :
  ∃ ws, Forall (λ w, w ∈ patterns) ws
        ∧ l = mjoin ws ++ PyStr.drop_leading patterns fuel l.
Proof.
  revert l. induction fuel as [|fuel IH]; intros l; simpl.
  { by exists []. }
  destruct (PyStr.first_match patterns l) as [rest|] eqn:Hmatch; [|by exists []].
  apply first_match_Some in Hmatch as (w & Hw & ->).
  destruct (IH rest) as (ws & Hws & Hrest).
  exists (w :: ws). split; [by constructor|].
  simpl. rewrite <- (assoc_L (++)). by rewrite <- Hrest.
Qed.

Lemma drop_leading_stops (patterns : list (list ascii)) (fuel : nat) (l : list ascii) :
  Forall (λ w, w ≠ []) patterns →
  (List.length l ≤ fuel)%nat →
  PyStr.first_match patterns (PyStr.drop_leading patterns fuel l) = None.
Proof.
  intros Hnonempty. revert l. induction fuel as [|fuel IH]; intros l Hlen; simpl.
  - destruct l; [|simpl in Hlen; lia].
    apply first_match_None. intros w Hw [k Hk].
    symmetry in Hk. apply app_eq_nil in Hk as [-> _].
    by apply (proj1 (Forall_forall _ _) Hnonempty []).
  - destruct (PyStr.first_match patterns l) as [rest|] eqn:Hmatch; [|done].
    apply IH. apply first_match_Some in Hmatch as (w & Hw & ->).
    rewrite length_app in Hlen.
    destruct w; [by apply (proj1 (Forall_forall _ _) Hnonempty []) in Hw|].
    simpl in Hlen. lia.
Qed.

Lemma drop_leading_fixed (patterns : list (list ascii)) (fuel : nat) (l : list ascii) :
  PyStr.first_match patterns l = None → PyStr.drop_leading patterns fuel l = l.
Proof. intros Hnone. destruct fuel; simpl; [done|by rewrite Hnone]. Qed.

Lemma rev_join (ls : list (list ascii)) :
  List.rev (mjoin ls) = mjoin (List.rev (List.map (@List.rev ascii) ls)).
Proof.
  induction ls as [|l ls IH]; [done|].
  simpl. rewrite List.rev_app_distr, IH, join_app. simpl. by rewrite app_nil_r.
Qed.

Lemma blanks_nonempty : Forall (λ w, w ≠ []) PyStr.blanks.
Proof. apply Forall_forall. intros w Hw ->. revert Hw. vm_compute. 
  intros Hw. repeat (apply elem_of_cons in Hw as [Hw|Hw]; [discriminate Hw|]).
  by apply elem_of_nil in Hw.
Qed.

Lemma reversed_blanks_nonempty :
  Forall (λ w, w ≠ []) (List.map (@List.rev ascii) PyStr.blanks).
Proof.
  apply Forall_forall. intros w Hw ->.
  apply list_elem_of_In, List.in_map_iff in Hw as (w' & Hrev & Hin).
  apply list_elem_of_In in Hin.
  apply (f_equal (@List.rev ascii)) in Hrev. rewrite List.rev_involutive in Hrev.
  simpl in Hrev. subst w'.
  by apply (proj1 (Forall_forall _ _) blanks_nonempty []).
Qed.

Lemma strip_bytes (s : string) :
  list_ascii_of_string (PyStr.strip s)
  = PyStr.rstrip_bytes (PyStr.lstrip_bytes (list_ascii_of_string s)).
Proof. unfold PyStr.strip. apply list_ascii_of_string_of_list_ascii. Qed.

(** [strip] removes blanks from both ends and nothing else. *)
Lemma strip_split (s : string) :
  ∃ lead trail,
    Forall (λ w, w ∈ PyStr.blanks) lead
    ∧ Forall (λ w, w ∈ PyStr.blanks) trail
    ∧ list_ascii_of_string s
      = mjoin lead ++ list_ascii_of_string (PyStr.strip s) ++ mjoin trail.
Proof.
  rewrite strip_bytes. unfold PyStr.rstrip_bytes, PyStr.lstrip_bytes.
  set (l := list_ascii_of_string s).
  destruct (drop_leading_split PyStr.blanks (List.length l) l) as (lead & Hlead & Hl).
  set (m := PyStr.drop_leading PyStr.blanks (List.length l) l) in *.
  destruct (drop_leading_split (List.map (@List.rev ascii) PyStr.blanks)
              (List.length m) (List.rev m)) as (ws & Hws & Hm).
  set (d := PyStr.drop_leading (List.map (@List.rev ascii) PyStr.blanks)
              (List.length m) (List.rev m)) in *.
  exists lead, (List.rev (List.map (@List.rev ascii) ws)).
  split; [done|]. split.
  - apply Forall_forall. intros w Hw.
    apply list_elem_of_In, List.in_rev, List.in_map_iff in Hw as (w' & <- & Hin).
    apply list_elem_of_In in Hin.
    apply (proj1 (Forall_forall _ _) Hws), list_elem_of_In, List.in_map_iff in Hin
      as (b & <- & Hb).
    rewrite List.rev_involutive. by apply list_elem_of_In.
  - rewrite <- rev_join. rewrite <- List.rev_app_distr, <- Hm.
    by rewrite List.rev_involutive.
Qed.

(** What [strip] returns neither starts nor ends with a blank. *)
Lemma strip_trimmed (s : string) (w : list ascii) :
  w ∈ PyStr.blanks →
  ¬ w `prefix_of` list_ascii_of_string (PyStr.strip s)
  ∧ ¬ w `suffix_of` list_ascii_of_string (PyStr.strip s).
Proof.
  intros Hw. rewrite strip_bytes. unfold PyStr.rstrip_bytes, PyStr.lstrip_bytes.
  set (l := list_ascii_of_string s).
  pose proof (drop_leading_stops PyStr.blanks (List.length l) l blanks_nonempty
                (Nat.le_refl _)) as Hleft.
  set (m := PyStr.drop_leading PyStr.blanks (List.length l) l) in *.
  assert (List.length (List.rev m) ≤ List.length m)%nat as Hlen
    by (by rewrite List.length_rev).
  pose proof (drop_leading_stops (List.map (@List.rev ascii) PyStr.blanks)
                (List.length m) (List.rev m) reversed_blanks_nonempty Hlen) as Hright.
  destruct (drop_leading_split (List.map (@List.rev ascii) PyStr.blanks)
              (List.length m) (List.rev m)) as (ws & _ & Hm).
  set (d := PyStr.drop_leading (List.map (@List.rev ascii) PyStr.blanks)
              (List.length m) (List.rev m)) in *.
  split.
  - intros [k Hk]. apply (proj1 (first_match_None _ _) Hleft w Hw).
    exists (k ++ List.rev (mjoin ws)).
    rewrite <- (List.rev_involutive m), Hm, List.rev_app_distr, Hk.
    by rewrite <- (assoc_L (++)).
  - intros [k Hk].
    apply (proj1 (first_match_None _ _) Hright (List.rev w)).
    + apply list_elem_of_In, List.in_map, list_elem_of_In, Hw.
    + exists (List.rev k). rewrite <- (List.rev_involutive d), Hk.
      by rewrite List.rev_app_distr.
Qed.

(** A string that neither starts nor ends with a blank is left as it is. *)
Lemma strip_fixed (s : string) :
  (∀ w, w ∈ PyStr.blanks →
     ¬ w `prefix_of` list_ascii_of_string s
     ∧ ¬ w `suffix_of` list_ascii_of_string s) →
  PyStr.strip s = s.
Proof.
  intros Hclean. unfold PyStr.strip, PyStr.rstrip_bytes, PyStr.lstrip_bytes.
  set (l := list_ascii_of_string s).
  rewrite (drop_leading_fixed PyStr.blanks _ l).
  - rewrite drop_leading_fixed.
    + rewrite List.rev_involutive. apply string_of_list_ascii_of_string.
    + apply first_match_None. intros w Hw [k Hk].
      apply list_elem_of_In, List.in_map_iff in Hw as (b & <- & Hb).
      apply list_elem_of_In in Hb. apply (Hclean b Hb). exists (List.rev k).
      apply (f_equal (@List.rev ascii)) in Hk.
      by rewrite List.rev_involutive, List.rev_app_distr, List.rev_involutive in Hk.
  - apply first_match_None. intros w Hw. by apply (Hclean w Hw).
Qed.

Lemma prefix_empty (s : string) : String.prefix EmptyString s = true.
Proof. by destruct s. Qed.

Lemma prefix_append (old s : string) : String.prefix old (String.append old s) = true.
Proof.
  induction old as [|a old IH]; [apply prefix_empty|].
  simpl. by destruct (ascii_dec a a).
Qed.

Lemma remove_from_skip (old skipped s : string) :
  PyStr.remove_from old (String.length skipped) (String.append skipped s)
  = PyStr.remove_from old 0 s.
Proof. induction skipped as [|c skipped IH]; [done|exact IH]. Qed.

(** [remove_all] scans from the left: an occurrence at the head is dropped
    whole and the scan goes on behind it; otherwise the first character is
    kept. With the empty string left empty, these equations determine it. *)
Lemma remove_all_match (old s : string) :
  old ≠ EmptyString →
  PyStr.remove_all old (String.append old s) = PyStr.remove_all old s.
Proof.
  destruct old as [|a old]; [done|]. intros _.
  change (PyStr.remove_from (String a old) 0
            (String a (String.append old s))
          = PyStr.remove_from (String a old) 0 s).
  cbn [PyStr.remove_from].
  change (String a (String.append old s)) with (String.append (String a old) s).
  rewrite prefix_append.
  replace (String.length (String a old) - 1)%nat with (String.length old)
    by (simpl; lia).
  apply remove_from_skip.
Qed.

Lemma remove_all_keep (old : string) (c : ascii) (s : string) :
  String.prefix old (String c s) = false →
  PyStr.remove_all old (String c s) = String c (PyStr.remove_all old s).
Proof.
  destruct old as [|a old]; [done|]. intros Hprefix.
  unfold PyStr.remove_all. cbn [PyStr.remove_from]. by rewrite Hprefix.
Qed.

Lemma remove_all_empty (old : string) : PyStr.remove_all old EmptyString = EmptyString.
Proof. by destruct old. Qed.

(** A trailing no-break space (U+00A0) is white space for [strip]. *)
Lemma strip_no_break_space :
  PyStr.strip (String.append "jane@doe.edu"
                 (String (ascii_of_nat 194) (String (ascii_of_nat 160) EmptyString)))
  = "jane@doe.edu".
Proof. vm_compute. reflexivity. Qed.


(** ** Traces and the retry loop *)

Lemma actions_app (t u : list event) : actions (t ++ u) = actions t ++ actions u.
Proof. unfold actions. apply List.filter_app. Qed.

Lemma retry_pattern_S url d n :
  retry_pattern url d (S (S n)) = EvGet url :: EvSleep d :: retry_pattern url d (S n).
Proof. reflexivity. Qed.

Lemma retry_pattern_attempts url d n : attempts_made (retry_pattern url d n) = n.
Proof.
  induction n as [|[|n] IH]; [done..|].
  rewrite retry_pattern_S.
  change (S (attempts_made (retry_pattern url d (S n))) = S (S n)). by rewrite IH.
Qed.

Lemma retry_pattern_sleeps url d n :
  sleeps (retry_pattern url d n) = replicate (n - 1) d.
Proof.
  induction n as [|[|n] IH]; [done..|].
  rewrite retry_pattern_S.
  change (d :: sleeps (retry_pattern url d (S n)) = replicate (S (S n) - 1) d).
  rewrite IH. simpl. by rewrite Nat.sub_0_r.
Qed.

Lemma attempts_made_actions t : attempts_made (actions t) = attempts_made t.
Proof.
  unfold attempts_made, actions. induction t as [|[] t IH]; simpl; auto.
Qed.

Lemma sleeps_actions t : sleeps (actions t) = sleeps t.
Proof.
  unfold sleeps, actions. induction t as [|[] t IH]; simpl; auto.
  f_equal. exact IH.
Qed.

Section FetchFacts.
Variable url : string.
Variable net : responses.
Variables max_retries delay_seconds : Z.
Hypothesis delay_nonneg : 0 ≤ delay_seconds.

Lemma fetch_loop_cons attempt rest :
  fetch_loop url net max_retries delay_seconds (attempt :: rest) =
  run_bind (λ r, match r with
                 | Some html => mret html
                 | None => fetch_loop url net max_retries delay_seconds rest
                 end)
           (fetch_attempt url net max_retries delay_seconds attempt).
Proof. reflexivity. Qed.

Lemma fetch_attempt_retryable attempt :
  retryable (net (Z.to_nat attempt)) →
  outcome (fetch_attempt url net max_retries delay_seconds attempt) =
    Ret (if attempt <? max_retries - 1 then None else Some EmptyString) ∧
  actions (trace (fetch_attempt url net max_retries delay_seconds attempt)) =
    EvGet url :: (if attempt <? max_retries - 1 then [EvSleep delay_seconds] else []).
Proof.
  intros Hr. unfold fetch_attempt, after_failure, time_sleep.
  assert ((delay_seconds <? 0) = false) as Hd by lia.
  destruct (net (Z.to_nat attempt)) as [|status| |]; simpl in Hr; try done.
  - assert ((400 <=? status) && (status <? 500) = false) as -> by lia.
    destruct (attempt <? max_retries - 1); rewrite ?Hd; done.
  - destruct (attempt <? max_retries - 1); rewrite ?Hd; done.
Qed.

Lemma fetch_loop_exhausted (n : nat) (a : Z) :
  0 ≤ a → a + Z.of_nat n = max_retries →
  (∀ k : nat, (k < Z.to_nat max_retries)%nat → retryable (net k)) →
  let r := fetch_loop url net max_retries delay_seconds (seqZ a (Z.of_nat n)) in
  outcome r = Ret EmptyString ∧ actions (trace r) = retry_pattern url delay_seconds n.
Proof.
  revert a. induction n as [|n IH]; intros a Ha Hsum Hall; [done|].
  rewrite seqZ_cons by lia. rewrite fetch_loop_cons.
  assert (retryable (net (Z.to_nat a))) as Hr by (apply Hall; lia).
  destruct (fetch_attempt_retryable a Hr) as [Ho Ht].
  replace (Z.pred (Z.of_nat (S n))) with (Z.of_nat n) by lia.
  unfold run_bind. rewrite Ho.
  destruct (Z.ltb_spec a (max_retries - 1)) as [Hlt|Hge].
  - cbn [outcome trace].
    destruct (IH (Z.succ a)) as [Ho' Ht']; [lia..|done|].
    split; [done|]. rewrite actions_app, Ht, Ht'.
    destruct n as [|n]; [lia|done].
  - cbn [outcome trace mret Run_ret].
    split; [done|]. rewrite app_nil_r, Ht.
    destruct n as [|n]; [done|lia].
Qed.

End FetchFacts.

Lemma fetch_html_nonempty net url max_retries delay_seconds :
  url ≠ EmptyString →
  fetch_html net (Some url) max_retries delay_seconds =
  fetch_loop url net max_retries delay_seconds (seqZ 0 max_retries).
Proof. intros Hu. destruct url; done. Qed.

(** ** Facts about indexing and extraction *)

Lemma py_getitem_trace {A} (l : list A) (i : Z) : trace (py_getitem l i) = [].
Proof. unfold py_getitem. by destruct (py_index _ _ ≫= _). Qed.

Lemma py_getitem_nonneg {A} (l : list A) (i : Z) (x : A) :
  0 ≤ i → l !! Z.to_nat i = Some x → py_getitem l i = mret x.
Proof.
  intros Hi Hx. unfold py_getitem, py_index.
  pose proof (lookup_lt_Some _ _ _ Hx) as Hlt.
  assert ((i <? 0) = false) as -> by lia.
  assert ((i <? 0) || (Z.of_nat (List.length l) <=? i) = false) as -> by lia.
  simpl. by rewrite Hx.
Qed.

Lemma py_getitem_negative {A} (l : list A) (i : Z) :
  i < 0 → - Z.of_nat (List.length l) ≤ i →
  ∃ x, l !! Z.to_nat (Z.of_nat (List.length l) + i) = Some x ∧ py_getitem l i = mret x.
Proof.
  intros Hneg Hlow. unfold py_getitem, py_index.
  assert ((i <? 0) = true) as -> by lia.
  assert ((Z.of_nat (List.length l) + i <? 0)
          || (Z.of_nat (List.length l) <=? Z.of_nat (List.length l) + i) = false) as -> by lia.
  simpl.
  destruct (lookup_lt_is_Some_2 l (Z.to_nat (Z.of_nat (List.length l) + i))) as [x Hx]; [lia|].
  exists x. by rewrite Hx.
Qed.

Section ExtractorFacts.
Context `{HtmlLib node} {T : CaseMap}.

Lemma scrape_generic_table_chosen (soup : node) (config : table_config) (table : node) :
  default 0 (wrapper_index config)
    < Z.of_nat (List.length (select soup (table_container_selector config))) →
  outcome (py_getitem (select soup (table_container_selector config))
                      (default 0 (wrapper_index config))) = Ret table →
  scrape_generic_table soup config =
  MkRun [] (Ret (extract_row config <$> select table (row_selector config))).
Proof.
  intros Hlt Hget. unfold scrape_generic_table.
  pose proof (py_getitem_trace (select soup (table_container_selector config))
                (default 0 (wrapper_index config))) as Htr.
  destruct (select soup (table_container_selector config)) as [|t ts] eqn:Hsel.
  { unfold py_getitem in Hget.
    destruct (py_index _ _) as [j|]; [destruct j|]; discriminate Hget. }
  assert ((Z.of_nat (List.length (t :: ts)) <=? default 0 (wrapper_index config)) = false)
    as -> by lia.
  cbn [orb]. unfold mbind, Run_bind, run_bind. rewrite Hget, Htr. done.
Qed.

Lemma scrape_generic_table_in_range (soup : node) (config : table_config) (table : node) :
  0 ≤ default 0 (wrapper_index config) →
  select soup (table_container_selector config)
    !! Z.to_nat (default 0 (wrapper_index config)) = Some table →
  scrape_generic_table soup config =
  MkRun [] (Ret (extract_row config <$> select table (row_selector config))).
Proof.
  intros Hidx Hlook. apply scrape_generic_table_chosen.
  - apply lookup_lt_Some in Hlook. lia.
  - by rewrite (py_getitem_nonneg _ _ table).
Qed.

Lemma foldl_store_dom (row : node) (fields : list (string * field_config))
    (member : gmap string value) :
  dom (foldl (store_field row) member fields) =
  dom member ∪ list_to_set (str_lower ∘ fst <$> fields).
Proof.
  revert member. induction fields as [|f fields IH]; intros member.
  - simpl. by rewrite (right_id_L ∅ (∪)).
  - cbn [foldl fmap list_fmap list_to_set]. rewrite IH.
    unfold store_field. rewrite dom_insert_L.
    by rewrite (comm_L (∪) {[_]} (dom member)), (assoc_L (∪)).
Qed.

Lemma extract_row_dom (config : table_config) (row : node) :
  dom (extract_row config row) =
  list_to_set (str_lower ∘ fst <$> field_selectors config).
Proof.
  unfold extract_row. rewrite foldl_store_dom, dom_empty_L.
  by rewrite (left_id_L ∅ (∪)).
Qed.

Lemma foldl_store_other (row : node) (fields : list (string * field_config))
    (member : gmap string value) (key : string) :
  (∀ f, f ∈ fields → str_lower f.1 ≠ key) →
  foldl (store_field row) member fields !! key = member !! key.
Proof.
  revert member. induction fields as [|f fields IH]; intros member Hne; [done|].
  simpl. rewrite IH by (intros g Hg; apply Hne; by right).
  unfold store_field. apply lookup_insert_ne. apply Hne. by left.
Qed.

Lemma extract_row_last_writer (config : table_config) (row : node)
    (before after : list (string * field_config)) (name : string) (fc : field_config) :
  field_selectors config = before ++ (name, fc) :: after →
  (∀ f, f ∈ after → str_lower f.1 ≠ str_lower name) →
  extract_row config row !! str_lower name = Some (field_value row name fc).
Proof.
  intros Hsplit Hafter. unfold extract_row. rewrite Hsplit, foldl_app. simpl.
  rewrite foldl_store_other by done.
  unfold store_field. simpl. apply lookup_insert_eq.
Qed.


End ExtractorFacts.

(** ** Fetcher: the claims *)

(** C2. A request answered with a client error (status 400-499) ends the
    fetch at once: exactly one attempt is made, nothing is slept, the
    result is the empty string, and no exception reaches the caller. *)
Theorem fetch_html_client_error_aborts (net : responses) (url : string)
    (max_retries delay_seconds status : Z) :
  url ≠ EmptyString → 1 ≤ max_retries →
  net 0%nat = HTTPError status → 400 ≤ status ≤ 499 →
  fetch_html net (Some url) max_retries delay_seconds =
    MkRun [EvGet url; EvPrint (MsgPermanentError url status)] (Ret EmptyString)
  ∧ attempts_made (trace (fetch_html net (Some url) max_retries delay_seconds)) = 1%nat
  ∧ sleeps (trace (fetch_html net (Some url) max_retries delay_seconds)) = [].
Proof.
  intros Hurl Hmax Hnet Hstatus.
  assert (fetch_html net (Some url) max_retries delay_seconds =
          MkRun [EvGet url; EvPrint (MsgPermanentError url status)] (Ret EmptyString)) as ->.
  { rewrite fetch_html_nonempty by done. rewrite seqZ_cons by lia.
    rewrite fetch_loop_cons. unfold fetch_attempt.
    change (Z.to_nat 0) with 0%nat. rewrite Hnet.
    assert ((400 <=? status) && (status <? 500) = true) as -> by lia.
    reflexivity. }
  done.
Qed.

Lemma fetch_html_client_error_aborts_witness :
  fetch_html Sample.not_found (Some "http://alpha") 3 5 =
    MkRun [EvGet "http://alpha"; EvPrint (MsgPermanentError "http://alpha" 404)] (Ret EmptyString)
  ∧ attempts_made (trace (fetch_html Sample.not_found (Some "http://alpha") 3 5)) = 1%nat
  ∧ sleeps (trace (fetch_html Sample.not_found (Some "http://alpha") 3 5)) = [].
Proof.
  apply (fetch_html_client_error_aborts Sample.not_found "http://alpha" 3 5 404).
  - discriminate.
  - lia.
  - reflexivity.
  - lia.
Defined.



(** ** Record extractor: the claims *)

(** C4. With a non-negative [wrapper_index], when the container selector
    matches nothing or the index is not below the number of matches, the
    extraction logs the miss and returns the empty sequence; it does not
    raise. *)
Theorem scrape_generic_table_missing_container `{HtmlLib node} {T : CaseMap}
    (soup : node) (config : table_config) :
  0 ≤ default 0 (wrapper_index config) →
  select soup (table_container_selector config) = []
  ∨ Z.of_nat (List.length (select soup (table_container_selector config)))
    ≤ default 0 (wrapper_index config) →
  scrape_generic_table soup config =
  MkRun [EvPrint (MsgTableNotFound (table_container_selector config)
                                  (default 0 (wrapper_index config)))]
        (Ret []).
Proof.
  intros Hidx Hout. unfold scrape_generic_table.
  destruct (select soup (table_container_selector config)) as [|t ts]; [done|].
  destruct Hout as [Hnil|Hlen]; [done|].
  assert ((Z.of_nat (List.length (t :: ts)) <=? default 0 (wrapper_index config)) = true)
    as -> by lia.
  done.
Qed.

Lemma scrape_generic_table_missing_container_witness :
  scrape_generic_table (H := Sample.lib) (T := Sample.text) Sample.page (Sample.table (Some 2)) =
  MkRun [EvPrint (MsgTableNotFound "table" 2)] (Ret []).
Proof.
  apply (scrape_generic_table_missing_container (H := Sample.lib) (T := Sample.text)
           Sample.page (Sample.table (Some 2))).
  - simpl. lia.
  - right. vm_compute. discriminate.
Defined.

(** C9. A negative [wrapper_index] whose absolute value does not exceed the
    number of matched containers passes the range guard: nothing is logged,
    the container counted from the end is selected (for -1 the last match)
    and its rows are extracted. *)
Theorem scrape_generic_table_negative_index `{HtmlLib node} {T : CaseMap}
    (soup : node) (config : table_config) (i : Z) :
  wrapper_index config = Some i → i < 0 →
  (1 ≤ List.length (select soup (table_container_selector config)))%nat →
  - Z.of_nat (List.length (select soup (table_container_selector config))) ≤ i →
  ∃ table : node,
    select soup (table_container_selector config)
      !! Z.to_nat (Z.of_nat (List.length (select soup (table_container_selector config))) + i)
      = Some table
    ∧ scrape_generic_table soup config =
      MkRun [] (Ret (extract_row config <$> select table (row_selector config)))
    ∧ (i = -1 → last (select soup (table_container_selector config)) = Some table).
Proof.
  intros Hi Hneg Hlen Hlow.
  destruct (py_getitem_negative (select soup (table_container_selector config)) i)
    as (table & Hlook & Hget); [done..|].
  exists table. split; [done|]. split.
  - apply scrape_generic_table_chosen; rewrite Hi; simpl; [lia|].
    by rewrite Hget.
  - intros ->. rewrite last_lookup. rewrite <- Hlook. f_equal. lia.
Qed.

Lemma scrape_generic_table_negative_index_witness :
  ∃ table : Sample.element,
    select (HtmlLib := Sample.lib) Sample.page "table" !! 1%nat = Some table
    ∧ scrape_generic_table (H := Sample.lib) (T := Sample.text) Sample.page (Sample.table (Some (-1))) =
      MkRun [] (Ret (extract_row (H := Sample.lib) (T := Sample.text) (Sample.table (Some (-1)))
                       <$> select (HtmlLib := Sample.lib) table "tr"))
    ∧ (-1 = -1 → last (select (HtmlLib := Sample.lib) Sample.page "table") = Some table).
Proof.
  apply (scrape_generic_table_negative_index (H := Sample.lib) (T := Sample.text)
           Sample.page (Sample.table (Some (-1))) (-1)).
  - reflexivity.
  - lia.
  - vm_compute. lia.
  - vm_compute. discriminate.
Defined.

(** C10. In attribute mode (a descriptor with a non-empty attribute name)
    the value of a field is what the first matching element holds under
    that attribute: [None] when the element lacks it, with no fallback to
    the text, and the e-mail rule is not applied, also for a field named
    [email] whose element has an [href]. *)
Theorem field_value_attribute_mode `{HtmlLib node} {T : CaseMap}
    (row tag : node) (field_name selector a : string) :
  a ≠ EmptyString →
  select_one row selector = Some tag →
  field_value row field_name (Descriptor selector (Some a)) = get_attr tag a
  ∧ (get_attr tag a = None →
     field_value row field_name (Descriptor selector (Some a)) = None
     ∧ ∀ member : gmap string value,
         store_field row member (field_name, Descriptor selector (Some a))
         = <[str_lower field_name := None]> member)
  ∧ (∀ href : string, get_attr tag "href" = Some href →
     field_value row "email" (Descriptor selector (Some a)) = get_attr tag a).
Proof.
  intros Ha Hsel.
  assert (∀ n, field_value row n (Descriptor selector (Some a)) = get_attr tag a) as Hval.
  { intros n. unfold field_value. simpl. rewrite Hsel. by destruct a. }
  split; [apply Hval|]. split.
  - intros Hnone. split; [by rewrite Hval|].
    intros member. unfold store_field. simpl. by rewrite Hval, Hnone.
  - intros href _. apply Hval.
Qed.

Lemma field_value_attribute_mode_witness :
  field_value (H := Sample.lib) Sample.jane "email" (Descriptor "a" (Some "title")) = None.
Proof.
  destruct (field_value_attribute_mode (H := Sample.lib) (T := Sample.text) Sample.jane
              (Sample.Element "a" [("href", "mailto:jane@doe.edu")] "Email Jane" [])
              "email" "a" "title") as (_ & Hnone & _).
  - discriminate.
  - reflexivity.
  - destruct Hnone as [Hv _]; [reflexivity|exact Hv].
Defined.

(** The two names of [Sample.clash] share a key under every case mapping,
    Python's included: the later field overwrites what the missed field
    stored. *)
Lemma clash_overwrites_missed_field (T : CaseMap) :
  str_lower "Name" = str_lower "name"
  ∧ extract_row (H := Sample.lib) Sample.clash Sample.jane !! str_lower "Name"
    = Some (Some "Jane Doe").
Proof.
  unfold extract_row. cbn [Sample.clash field_selectors foldl].
  unfold store_field. cbn [fst snd].
  rewrite (str_lower_ascii "Name"), (str_lower_ascii "name") by reflexivity.
  split; [reflexivity|]. vm_compute. reflexivity.
Qed.




(** C6, as stated, fails on a link that names a second address: the code
    removes every [mailto:], the rule in the specification's words only the
    leading one. *)
Lemma email_prefix_rule_counterexample :
  ¬ email_prefix_rule (H := Sample.lib) Sample.copied (Selector "a").
Proof.
  intros Hclaim.
  specialize (Hclaim eq_refl
    (Sample.Element "a" [("href", "mailto:jane@doe.edu?cc=mailto:joe@doe.edu")] "Write" [])
    "mailto:jane@doe.edu?cc=mailto:joe@doe.edu" eq_refl eq_refl).
  vm_compute in Hclaim. discriminate Hclaim.
Qed.

Lemma substring_whole (s : string) : substring 0 (String.length s) s = s.
Proof. induction s as [|c s IH]; simpl; [done|by rewrite IH]. Qed.

(** Where [mailto:] occurs only at the head of the link, removing every
    occurrence and stripping the prefix give the same address. *)
Lemma email_rules_agree_on_leading_mailto (rest : string) :
  PyStr.remove_all "mailto:" rest = rest →
  PyStr.strip (PyStr.remove_all "mailto:" (String.append "mailto:" rest))
  = email_by_prefix (String.append "mailto:" rest).
Proof.
  intros Hclean. unfold email_by_prefix. destruct rest as [|c rest]; [reflexivity|].
  change (PyStr.remove_all "mailto:" (String.append "mailto:" (String c rest)))
    with (PyStr.remove_all "mailto:" (String c rest)).
  rewrite Hclean.
  change (String.prefix "mailto:" (String.append "mailto:" (String c rest))) with true.
  change (substring 7 _ _)
    with (substring 0 (String.length (String c rest)) (String c rest)).
  by rewrite substring_whole.
Qed.

(** C6, amended. For a field named exactly [email] in text mode whose first
    matching element has an [href], the value is that [href] with every
    occurrence of [mailto:] removed and the result trimmed, not the
    element's text: the value neither starts nor ends with white space and
    differs from the [href] without its [mailto:]s by leading and trailing
    white space only; [mailto:jane@doe.edu] gives exactly [jane@doe.edu]. *)
Theorem field_value_email_href `{HtmlLib node}
    (row tag : node) (fc : field_config) (href : string) :
  truthy (attribute_name fc) = None →
  select_one row (selector_string fc) = Some tag →
  get_attr tag "href" = Some href →
  ∃ address : string,
    field_value row "email" fc = Some address
    ∧ address = PyStr.strip (PyStr.remove_all "mailto:" href)
    ∧ (∀ w, w ∈ PyStr.blanks →
         ¬ w `prefix_of` list_ascii_of_string address
         ∧ ¬ w `suffix_of` list_ascii_of_string address)
    ∧ (∃ lead trail,
         Forall (λ w, w ∈ PyStr.blanks) lead
         ∧ Forall (λ w, w ∈ PyStr.blanks) trail
         ∧ list_ascii_of_string (PyStr.remove_all "mailto:" href)
           = mjoin lead ++ list_ascii_of_string address ++ mjoin trail)
    ∧ (∀ rest, href = String.append "mailto:" rest →
         address = PyStr.strip (PyStr.remove_all "mailto:" rest))
    ∧ (href = "mailto:jane@doe.edu" → address = "jane@doe.edu").
Proof.
  intros Hmode Hsel Hhref.
  exists (PyStr.strip (PyStr.remove_all "mailto:" href)). split.
  { unfold field_value. rewrite Hsel, Hmode. simpl. by rewrite Hhref. }
  split; [done|]. split; [intros w Hw; by apply strip_trimmed|].
  split; [apply strip_split|]. split.
  - intros rest ->. by rewrite remove_all_match.
  - intros ->. vm_compute. reflexivity.
Qed.

Lemma field_value_email_href_witness :
  field_value (H := Sample.lib) Sample.jane "email" (Selector "a") = Some "jane@doe.edu".
Proof.
  destruct (field_value_email_href (H := Sample.lib) Sample.jane
              (Sample.Element "a" [("href", "mailto:jane@doe.edu")] "Email Jane" [])
              (Selector "a") "mailto:jane@doe.edu")
    as (address & Hvalue & _ & _ & _ & _ & Hjane).
  - reflexivity.
  - reflexivity.
  - reflexivity.
  - rewrite Hvalue. f_equal. apply Hjane. reflexivity.
Defined.




(** ** Site parser and orchestrator *)

Lemma run_bind_ret {A B} (f : A → Run B) (a : A) : mret a ≫= f = f a.
Proof. unfold mbind, Run_bind, run_bind. simpl. by destruct (f a). Qed.

Lemma outcome_bind {A B} (f : A → Run B) (m : Run A) (a : A) :
  outcome m = Ret a → outcome (m ≫= f) = outcome (f a).
Proof. intros Hm. unfold mbind, Run_bind, run_bind. by rewrite Hm. Qed.

Lemma reindex_lookup (cols : gset string) (r : gmap string cell) (c : string) :
  c ∈ cols → reindex cols r !! c = Some (default NaN (r !! c)).
Proof.
  intros Hc. unfold reindex. apply lookup_set_to_map.
  - by intros y y' _ _ Heq.
  - by exists c.
Qed.

Section SiteFacts.
Context `{HtmlLib node} {T : CaseMap}.
Variable net : network.

Lemma scrape_entries_no_tables (soup : node)
    (staff_data : list (list (gmap string value))) (config : site_config) :
  (∀ key v, (key, v) ∈ config → PyStr.endswith key "_TABLE" = false) →
  scrape_entries soup staff_data config = mret staff_data.
Proof.
  induction config as [|[key v] config IH]; intros Hkeys; [done|].
  cbn [scrape_entries scrape_entry].
  rewrite (Hkeys key v) by apply list_elem_of_here.
  rewrite run_bind_ret. apply IH. intros k w Hin. apply (Hkeys k w). by right.
Qed.

Lemma collect_report (results : list DataFrame) (site : string * site_config) :
  collect net results site =
  MkRun [report net site]
        (Ret (results ++ succeeded net [site])).
Proof.
  destruct site as [school conf]. unfold collect, report, succeeded, try_except.
  unfold future_result, mbind, Run_bind, run_bind. simpl.
  destruct (outcome (parse_site net school conf)) as [df|e]; simpl; [done|].
  by rewrite app_nil_r.
Qed.

Lemma succeeded_cons (site : string * site_config) (completed : list (string * site_config)) :
  succeeded net (site :: completed) = succeeded net [site] ++ succeeded net completed.
Proof.
  unfold succeeded. simpl.
  by destruct (outcome (parse_site net site.1 site.2)).
Qed.

Lemma collect_all_report (completed : list (string * site_config))
    (results : list DataFrame) :
  collect_all net results completed =
  MkRun (report net <$> completed) (Ret (results ++ succeeded net completed)).
Proof.
  revert results. induction completed as [|site completed IH]; intros results.
  - simpl. unfold succeeded. simpl. by rewrite app_nil_r.
  - cbn [collect_all]. rewrite collect_report.
    unfold mbind, Run_bind, run_bind. cbn [outcome trace].
    rewrite IH. cbn [outcome trace].
    rewrite (succeeded_cons site completed), (assoc_L (++)). reflexivity.
Qed.

Lemma scrape_all_report (completed : list (string * site_config))
    (results : list DataFrame) :
  scrape_all net completed results =
  MkRun ((report net <$> completed)
           ++ [EvPrint (MsgDone (List.length (results ++ succeeded net completed)))])
        (Ret (results ++ succeeded net completed)).
Proof.
  unfold scrape_all. rewrite collect_all_report.
  unfold mbind, Run_bind, run_bind. reflexivity.
Qed.

End SiteFacts.

(** C1 (the code departs from the claim). A site with no handler marker, a
    page that was fetched, and no key ending in [_TABLE] does not get an
    empty table: [staff_data] is the empty list, so [staff_data[0]] raises
    [IndexError]. *)
Theorem parse_site_without_table_blocks_raises `{HtmlLib node} {T : CaseMap}
    (net : network) (school : string) (config : site_config) (html : string) :
  dict_has "handler" config = false →
  outcome (fetch net (config_url config)) = Ret html →
  html ≠ EmptyString →
  (∀ key v, (key, v) ∈ config → PyStr.endswith key "_TABLE" = false) →
  outcome (parse_site net school config) = Raise IndexError.
Proof.
  intros Hhandler Hfetch Hhtml Hkeys. unfold parse_site. rewrite Hhandler.
  rewrite (outcome_bind _ _ html Hfetch).
  assert (String.eqb html EmptyString = false) as -> by (by apply String.eqb_neq).
  rewrite scrape_entries_no_tables by done.
  rewrite run_bind_ret. reflexivity.
Qed.

Lemma parse_site_without_table_blocks_raises_witness :
  outcome (parse_site (H := Sample.lib) (T := Sample.text) Sample.up "Gamma" [("url", CStr "http://gamma")])
  = Raise IndexError.
Proof.
  apply (parse_site_without_table_blocks_raises (H := Sample.lib) (T := Sample.text) Sample.up "Gamma"
           [("url", CStr "http://gamma")] "<html>...</html>").
  - reflexivity.
  - reflexivity.
  - discriminate.
  - intros key v Hin. apply list_elem_of_singleton in Hin.
    injection Hin as -> ->. reflexivity.
Defined.



(** * Further properties of the program *)

(** ** Fetcher *)

Section FetchBounds.
Variable url : string.
Variable net : responses.
Variables max_retries delay_seconds : Z.

Lemma fetch_loop_pattern (n : nat) (a : Z) :
  0 ≤ a → a + Z.of_nat n = max_retries →
  ∃ k : nat,
    (k ≤ n)%nat ∧ ((1 ≤ n)%nat → (1 ≤ k)%nat)
    ∧ actions (trace (fetch_loop url net max_retries delay_seconds (seqZ a (Z.of_nat n))))
      = retry_pattern url delay_seconds k.
Proof.
  revert a. induction n as [|n IH]; intros a Ha Hsum.
  { exists 0%nat. split; [lia|]. split; [lia|done]. }
  rewrite seqZ_cons by lia. rewrite fetch_loop_cons.
  replace (Z.pred (Z.of_nat (S n))) with (Z.of_nat n) by lia.
  assert (∀ m : message,
    ∃ k : nat, (k ≤ S n)%nat ∧ ((1 ≤ S n)%nat → (1 ≤ k)%nat)
      ∧ actions (trace (run_bind
           (λ r, match r with
                 | Some html => mret html
                 | None => fetch_loop url net max_retries delay_seconds
                             (seqZ (Z.succ a) (Z.of_nat n))
                 end)
           (emit (EvGet url);; print m;;
            after_failure url max_retries delay_seconds a)))
        = retry_pattern url delay_seconds k) as Hretry.
  { intros m. unfold after_failure, time_sleep.
    destruct (Z.ltb_spec a (max_retries - 1)) as [Hlt|Hge].
    - destruct (Z.ltb_spec delay_seconds 0) as [Hneg|Hpos].
      + exists 1%nat. split; [lia|]. split; [lia|done].
      + destruct (IH (Z.succ a)) as (k & Hk & Hone & Hact); [lia..|].
        exists (S k). split; [lia|]. split; [lia|].
        unfold run_bind at 1. cbn [outcome trace mbind mret Run_bind Run_ret run_bind emit print app].
        change (actions (EvGet url :: EvPrint m :: EvSleep delay_seconds :: ?t))
          with (EvGet url :: EvSleep delay_seconds :: actions t).
        rewrite Hact. destruct k as [|k]; [lia|done].
    - exists 1%nat. split; [lia|]. split; [lia|done]. }
  unfold fetch_attempt.
  destruct (net (Z.to_nat a)) as [text|status| |e].
  - exists 1%nat. split; [lia|]. split; [lia|done].
  - destruct ((400 <=? status) && (status <? 500)).
    + exists 1%nat. split; [lia|]. split; [lia|done].
    + apply Hretry.
  - apply Hretry.
  - exists 1%nat. split; [lia|]. split; [lia|done].
Qed.
End FetchBounds.

Lemma fetch_html_pattern (net : responses) (url : option string)
    (max_retries delay_seconds : Z) :
  ∃ k : nat,
    (k ≤ Z.to_nat max_retries)%nat
    ∧ (k = 0%nat ↔ url = None ∨ url = Some EmptyString ∨ max_retries ≤ 0)
    ∧ actions (trace (fetch_html net url max_retries delay_seconds))
      = retry_pattern (default EmptyString url) delay_seconds k.
Proof.
  destruct url as [[|c u]|].
  - exists 0%nat. split; [lia|]. split; [|done]. split; auto.
  - destruct (Z.le_gt_cases max_retries 0) as [Hneg|Hpos].
    + exists 0%nat. split; [lia|]. split; [split; auto|].
      cbn [fetch_html]. by rewrite seqZ_nil by lia.
    + destruct (fetch_loop_pattern (String c u) net max_retries delay_seconds
                  (Z.to_nat max_retries) 0) as (k & Hk & Hone & Hact); [lia..|].
      rewrite Z2Nat.id in Hact by lia.
      exists k. split; [done|]. split; [|done]. split.
      * lia.
      * intros [Hu|[Hu|Hmax]]; [discriminate..|lia].
  - exists 0%nat. split; [lia|]. split; [|done]. split; auto.
Qed.

Lemma fetch_html_skipped (net : responses) (url : option string)
    (max_retries delay_seconds : Z) :
  url = None ∨ url = Some EmptyString ∨ max_retries ≤ 0 →
  outcome (fetch_html net url max_retries delay_seconds) = Ret EmptyString.
Proof.
  intros [->|[->|Hmax]]; [done..|].
  destruct url as [[|c u]|]; [done| |done].
  cbn [fetch_html]. by rewrite seqZ_nil by lia.
Qed.

(** X1. Whatever the network answers, the requests and sleeps of a fetch
    are [k] requests to the URL with one sleep of [delay_seconds] between
    consecutive ones, for some [k] that does not exceed [max_retries]:
    no sleep ever follows the last request. *)
Theorem fetch_html_attempts_bounded (net : responses) (url : option string)
    (max_retries delay_seconds : Z) :
  ∃ k : nat,
    (k ≤ Z.to_nat max_retries)%nat
    ∧ actions (trace (fetch_html net url max_retries delay_seconds))
      = retry_pattern (default EmptyString url) delay_seconds k
    ∧ attempts_made (trace (fetch_html net url max_retries delay_seconds)) = k
    ∧ sleeps (trace (fetch_html net url max_retries delay_seconds))
      = replicate (k - 1) delay_seconds.
Proof.
  destruct (fetch_html_pattern net url max_retries delay_seconds) as (k & Hk & _ & Hact).
  exists k. split; [done|]. split; [done|].
  rewrite <- attempts_made_actions, <- sleeps_actions, Hact.
  by rewrite retry_pattern_attempts, retry_pattern_sleeps.
Qed.

(** X2. A fetch issues no request exactly when the URL is absent or empty
    or [max_retries] is not positive; in each of these cases it returns the
    empty string. *)
Theorem fetch_html_no_request_iff (net : responses) (url : option string)
    (max_retries delay_seconds : Z) :
  (attempts_made (trace (fetch_html net url max_retries delay_seconds)) = 0%nat
   ↔ url = None ∨ url = Some EmptyString ∨ max_retries ≤ 0)
  ∧ (url = None ∨ url = Some EmptyString ∨ max_retries ≤ 0 →
     outcome (fetch_html net url max_retries delay_seconds) = Ret EmptyString).
Proof.
  split; [|apply fetch_html_skipped].
  destruct (fetch_html_pattern net url max_retries delay_seconds) as (k & _ & Hzero & Hact).
  rewrite <- attempts_made_actions, Hact, retry_pattern_attempts. exact Hzero.
Qed.

Section FetchResults.
Variable url : string.
Variable net : responses.
Variables max_retries delay_seconds : Z.

Lemma fetch_loop_returns (n : nat) (a : Z) (html : string) :
  0 ≤ a → a + Z.of_nat n = max_retries →
  outcome (fetch_loop url net max_retries delay_seconds (seqZ a (Z.of_nat n))) = Ret html →
  html = EmptyString
  ∨ ∃ k : nat,
      (Z.to_nat a ≤ k < Z.to_nat max_retries)%nat
      ∧ net k = Returned html
      ∧ ∀ j : nat, (Z.to_nat a ≤ j < k)%nat →
          net j = RequestException
          ∨ ∃ status, net j = HTTPError status ∧ ¬ (400 ≤ status < 500).
Proof.
  revert a. induction n as [|n IH]; intros a Ha Hsum.
  { rewrite seqZ_nil by lia. intros [= <-]. by left. }
  rewrite seqZ_cons by lia. rewrite fetch_loop_cons.
  replace (Z.pred (Z.of_nat (S n))) with (Z.of_nat n) by lia.
  assert (∀ m : message,
    (net (Z.to_nat a) = RequestException
     ∨ ∃ status, net (Z.to_nat a) = HTTPError status ∧ ¬ (400 ≤ status < 500)) →
    outcome (run_bind
           (λ r, match r with
                 | Some html => mret html
                 | None => fetch_loop url net max_retries delay_seconds
                             (seqZ (Z.succ a) (Z.of_nat n))
                 end)
           (emit (EvGet url);; print m;;
            after_failure url max_retries delay_seconds a)) = Ret html →
    html = EmptyString
    ∨ ∃ k : nat,
        (Z.to_nat a ≤ k < Z.to_nat max_retries)%nat
        ∧ net k = Returned html
        ∧ ∀ j : nat, (Z.to_nat a ≤ j < k)%nat →
            net j = RequestException
            ∨ ∃ status, net j = HTTPError status ∧ ¬ (400 ≤ status < 500)) as Hretry.
  { intros m Hfail. unfold after_failure, time_sleep.
    destruct (Z.ltb_spec a (max_retries - 1)) as [Hlt|Hge].
    - destruct (Z.ltb_spec delay_seconds 0) as [Hneg|Hpos]; [discriminate|].
      unfold run_bind at 1.
      cbn [outcome trace mbind mret Run_bind Run_ret run_bind emit print app].
      intros Hrest. destruct (IH (Z.succ a)) as [->|(k & Hk & Hok & Hbefore)];
        [lia..|exact Hrest|by left|].
      right. exists k. split; [lia|]. split; [done|].
      intros j Hj. destruct (decide (j = Z.to_nat a)) as [->|Hne]; [done|].
      apply Hbefore. lia.
    - intros [= <-]. by left. }
  unfold fetch_attempt.
  destruct (net (Z.to_nat a)) as [text|status| |e] eqn:Hnet.
  - intros [= <-]. right. exists (Z.to_nat a). split; [lia|]. split; [done|]. lia.
  - destruct ((400 <=? status) && (status <? 500)) eqn:Hclient.
    + intros [= <-]. by left.
    + apply Hretry. right. exists status. split; [done|]. lia.
  - apply Hretry. by left.
  - discriminate.
Qed.
End FetchResults.

(** X3. What a fetch returns is the empty string or the body of the first
    request that was let through, and every request before that one failed
    with a transport error or with an HTTP error outside 400-499. *)
Theorem fetch_html_content_or_empty (net : responses) (url : option string)
    (max_retries delay_seconds : Z) (html : string) :
  outcome (fetch_html net url max_retries delay_seconds) = Ret html →
  html = EmptyString
  ∨ ∃ k : nat,
      (k < Z.to_nat max_retries)%nat
      ∧ net k = Returned html
      ∧ ∀ j : nat, (j < k)%nat →
          net j = RequestException
          ∨ ∃ status, net j = HTTPError status ∧ ¬ (400 ≤ status < 500).
Proof.
  destruct url as [[|c u]|]; [by intros [= <-]; left| |by intros [= <-]; left].
  cbn [fetch_html]. intros Hout.
  destruct (Z.le_gt_cases 0 max_retries) as [Hpos|Hneg].
  - destruct (fetch_loop_returns (String c u) net max_retries delay_seconds
                (Z.to_nat max_retries) 0 html) as [->|(k & Hk & Hok & Hbefore)];
      [lia..|by rewrite Z2Nat.id|by left|].
    right. exists k. split; [lia|]. split; [done|].
    intros j Hj. apply Hbefore. lia.
  - rewrite seqZ_nil in Hout by lia. injection Hout as <-. by left.
Qed.

Lemma fetch_html_content_or_empty_witness :
  "<html>...</html>" = EmptyString
  ∨ ∃ k : nat,
      (k < Z.to_nat 3)%nat
      ∧ Sample.flaky k = Returned "<html>...</html>"
      ∧ ∀ j : nat, (j < k)%nat →
          Sample.flaky j = RequestException
          ∨ ∃ status, Sample.flaky j = HTTPError status ∧ ¬ (400 ≤ status < 500).
Proof.
  apply (fetch_html_content_or_empty Sample.flaky (Some "http://alpha") 3 5).
  reflexivity.
Defined.






(** ** Record extractor *)

(** X6. With [wrapper_index] (0 when the key is absent) inside the range of
    matched containers, the container at that position is used: nothing is
    logged, and the records are those of its rows, one per row, in the
    order of the rows. *)
Theorem scrape_generic_table_selects_container `{HtmlLib node} {T : CaseMap}
    (soup table : node) (config : table_config) :
  0 ≤ default 0 (wrapper_index config) →
  select soup (table_container_selector config)
    !! Z.to_nat (default 0 (wrapper_index config)) = Some table →
  ∃ records : list (gmap string value),
    scrape_generic_table soup config = MkRun [] (Ret records)
    ∧ List.length records = List.length (select table (row_selector config))
    ∧ ∀ (i : nat) (row : node),
        select table (row_selector config) !! i = Some row →
        records !! i = Some (extract_row config row).
Proof.
  intros Hidx Hlook. eexists. split; [by apply scrape_generic_table_in_range|].
  split; [by rewrite length_fmap|].
  intros i row Hrow. by rewrite list_lookup_fmap, Hrow.
Qed.

Lemma scrape_generic_table_selects_container_witness :
  ∃ records : list (gmap string value),
    scrape_generic_table (H := Sample.lib) (T := Sample.text) Sample.page (Sample.table (Some 1))
      = MkRun [] (Ret records)
    ∧ List.length records = 1%nat.
Proof.
  destruct (scrape_generic_table_selects_container (H := Sample.lib) (T := Sample.text)
              Sample.page Sample.support (Sample.table (Some 1)))
    as (records & Hrun & Hlen & _).
  - simpl. lia.
  - reflexivity.
  - exists records. split; [exact Hrun|exact Hlen].
Defined.

(** X7. A negative [wrapper_index] that reaches before the first matched
    container is not caught by the range guard: the extraction raises
    [IndexError], without logging anything. *)
Theorem scrape_generic_table_index_before_first `{HtmlLib node} {T : CaseMap}
    (soup : node) (config : table_config) (i : Z) :
  wrapper_index config = Some i →
  (1 ≤ List.length (select soup (table_container_selector config)))%nat →
  i < - Z.of_nat (List.length (select soup (table_container_selector config))) →
  scrape_generic_table soup config = MkRun [] (Raise IndexError).
Proof.
  intros Hi Hlen Hlow. unfold scrape_generic_table. rewrite Hi. cbn [from_option id].
  destruct (select soup (table_container_selector config)) as [|t ts] eqn:Hsel;
    [simpl in Hlen; lia|].
  assert ((Z.of_nat (List.length (t :: ts)) <=? i) = false) as -> by lia.
  cbn [orb]. unfold py_getitem, py_index.
  assert ((i <? 0) = true) as -> by lia.
  assert ((Z.of_nat (List.length (t :: ts)) + i <? 0) = true) as -> by lia.
  reflexivity.
Qed.

Lemma scrape_generic_table_index_before_first_witness :
  scrape_generic_table (H := Sample.lib) (T := Sample.text) Sample.page (Sample.table (Some (-3)))
  = MkRun [] (Raise IndexError).
Proof.
  apply (scrape_generic_table_index_before_first (H := Sample.lib) (T := Sample.text)
           Sample.page (Sample.table (Some (-3))) (-3)).
  - reflexivity.
  - vm_compute. lia.
  - vm_compute. reflexivity.
Defined.

(** X8. In text mode (a bare selector, or a descriptor whose attribute name
    is absent or empty) a matched element gives its stripped text, unless
    the field is named exactly [email] and the element has an [href]; a
    field named [Email] is not the e-mail field. *)
Theorem field_value_text_mode `{HtmlLib node}
    (row tag : node) (field_name : string) (fc : field_config) :
  truthy (attribute_name fc) = None →
  select_one row (selector_string fc) = Some tag →
  field_name ≠ "email" ∨ get_attr tag "href" = None →
  field_value row field_name fc = Some (get_text_strip tag).
Proof.
  intros Hmode Hsel Hplain. unfold field_value. rewrite Hsel, Hmode.
  destruct Hplain as [Hname|Hhref].
  - apply String.eqb_neq in Hname. by rewrite Hname.
  - rewrite Hhref. by destruct (String.eqb field_name "email").
Qed.

Lemma field_value_text_mode_witness :
  field_value (H := Sample.lib) Sample.jane "Email" (Descriptor "a" (Some EmptyString))
  = Some "Email Jane".
Proof.
  apply (field_value_text_mode (H := Sample.lib) Sample.jane
           (Sample.Element "a" [("href", "mailto:jane@doe.edu")] "Email Jane" [])
           "Email" (Descriptor "a" (Some EmptyString))).
  - reflexivity.
  - reflexivity.
  - left. discriminate.
Defined.

(** X9. A field is [None] in exactly two cases: its selector matches
    nothing in the row, or it is read in attribute mode and the first
    matching element lacks the attribute. *)
Theorem field_value_none_iff `{HtmlLib node}
    (row : node) (field_name : string) (fc : field_config) :
  field_value row field_name fc = None
  ↔ select_one row (selector_string fc) = None
    ∨ ∃ tag a,
        select_one row (selector_string fc) = Some tag
        ∧ truthy (attribute_name fc) = Some a
        ∧ get_attr tag a = None.
Proof.
  unfold field_value.
  destruct (select_one row (selector_string fc)) as [tag|]; [|by split; [left|]].
  destruct (truthy (attribute_name fc)) as [a|].
  - split.
    + intros Hnone. right. by exists tag, a.
    + intros [Hmiss|(tag' & a' & [= <-] & [= <-] & Hnone)]; [done|exact Hnone].
  - split.
    + destruct (String.eqb field_name "email"), (get_attr tag "href"); discriminate.
    + intros [Hmiss|(tag' & a' & _ & Habs & _)]; discriminate.
Qed.

(** X10. When no two configured field names agree after lower-casing, the
    record of a row has one entry per field: each field's value is stored
    under its lower-cased name. *)
Theorem extract_row_distinct_names `{HtmlLib node} {T : CaseMap}
    (config : table_config) (row : node) :
  NoDup (str_lower ∘ fst <$> field_selectors config) →
  size (extract_row config row) = List.length (field_selectors config)
  ∧ ∀ name fc,
      (name, fc) ∈ field_selectors config →
      extract_row config row !! str_lower name = Some (field_value row name fc).
Proof.
  intros Hdistinct. split.
  - rewrite <- size_dom, extract_row_dom, size_list_to_set by done.
    by rewrite length_fmap.
  - intros name fc Hin.
    apply list_elem_of_split in Hin as (before & after & Hsplit).
    apply (extract_row_last_writer config row before after name fc Hsplit).
    intros f Hf Heq. rewrite Hsplit, fmap_app, fmap_cons in Hdistinct.
    apply NoDup_app in Hdistinct as (_ & _ & Hafter).
    apply NoDup_cons in Hafter as [Hnotin _]. apply Hnotin.
    cbn [compose fst]. rewrite <- Heq.
    by apply (list_elem_of_fmap_2 (str_lower ∘ fst)).
Qed.

Lemma extract_row_distinct_names_witness :
  size (extract_row (H := Sample.lib) (T := Sample.text) (Sample.table None) Sample.jane) = 3%nat
  ∧ extract_row (H := Sample.lib) (T := Sample.text) (Sample.table None) Sample.jane !! "name"
    = Some (Some "Jane Doe").
Proof.
  destruct (extract_row_distinct_names (H := Sample.lib) (T := Sample.text) (Sample.table None) Sample.jane)
    as [Hsize Hvalues].
  - apply (bool_decide_unpack _). vm_compute. exact I.
  - split; [exact Hsize|].
    apply (Hvalues "Name" (Selector "h3")). apply list_elem_of_here.
Defined.

(** ** Table keys and labels *)

Lemma string_length_append (a b : string) :
  String.length (String.append a b) = (String.length a + String.length b)%nat.
Proof. induction a as [|c a IH]; simpl; [done|by rewrite IH]. Qed.

Lemma substring_append_head (a b : string) :
  substring 0 (String.length a) (String.append a b) = a.
Proof. induction a as [|c a IH]; simpl; [by destruct b|by rewrite IH]. Qed.

Lemma substring_append_tail (a b : string) :
  substring (String.length a) (String.length b) (String.append a b) = b.
Proof. induction a as [|c a IH]; simpl; [apply substring_whole|exact IH]. Qed.

Lemma substring_split (s : string) (n : nat) :
  (n ≤ String.length s)%nat →
  String.append (substring 0 n s) (substring n (String.length s - n) s) = s.
Proof.
  revert n. induction s as [|c s IH]; intros [|n] Hn.
  - done.
  - simpl in Hn. lia.
  - change (substring 0 (String.length (String c s)) (String c s) = String c s).
    apply substring_whole.
  - change (String c (String.append (substring 0 n s)
                        (substring n (String.length s - n) s)) = String c s).
    f_equal. apply IH. simpl in Hn. lia.
Qed.

(** X11. The slice [table_key[:-6]] removes exactly the suffix that
    [endswith('_TABLE')] tests: a key passes the test exactly when it is its
    slice followed by [_TABLE], and the slice of [label + '_TABLE'] is
    [label]. *)
Theorem table_key_slice_matches_suffix (key label : string) :
  (PyStr.endswith key "_TABLE" = true
   ↔ key = String.append (PyStr.drop_last 6 key) "_TABLE")
  ∧ PyStr.endswith (String.append label "_TABLE") "_TABLE" = true
  ∧ PyStr.drop_last 6 (String.append label "_TABLE") = label.
Proof.
  assert (∀ l, PyStr.endswith (String.append l "_TABLE") "_TABLE" = true) as Hends.
  { intros l. unfold PyStr.endswith. rewrite string_length_append.
    change (String.length "_TABLE") with 6%nat.
    apply andb_true_intro. split; [apply Nat.leb_le; lia|].
    replace (String.length l + 6 - 6)%nat with (String.length l) by lia.
    apply String.eqb_eq. apply (substring_append_tail l "_TABLE"). }
  split; [|split; [apply Hends|]].
  - split.
    + unfold PyStr.endswith, PyStr.drop_last.
      change (String.length "_TABLE") with 6%nat.
      intros [Hlen Hsuffix]%andb_prop. apply Nat.leb_le in Hlen.
      apply String.eqb_eq in Hsuffix.
      pose proof (substring_split key (String.length key - 6)) as Hsplit.
      replace (String.length key - (String.length key - 6))%nat with 6%nat
        in Hsplit by lia.
      rewrite Hsuffix in Hsplit. symmetry. apply Hsplit. lia.
    + intros ->. apply Hends.
  - unfold PyStr.drop_last. rewrite string_length_append.
    change (String.length "_TABLE") with 6%nat.
    replace (String.length label + 6 - 6)%nat with (String.length label) by lia.
    apply substring_append_head.
Qed.

(** ** Site parser *)

Lemma trace_bind {A B} (f : A → Run B) (m : Run A) :
  trace (m ≫= f)
  = trace m ++ match outcome m with Ret a => trace (f a) | Raise _ => [] end.
Proof.
  unfold mbind, Run_bind, run_bind.
  destruct (outcome m); [done|by rewrite app_nil_r].
Qed.

Lemma outcome_bind_raise {A B} (f : A → Run B) (m : Run A) (e : exn) :
  outcome m = Raise e → outcome (m ≫= f) = Raise e.
Proof. intros Hm. unfold mbind, Run_bind, run_bind. by rewrite Hm. Qed.

Lemma pd_concat_trace (frames : list DataFrame) : trace (pd.concat frames) = [].
Proof. by destruct frames. Qed.

Lemma pd_reset_index_trace (df : DataFrame) : trace (pd.reset_index df) = [].
Proof. unfold pd.reset_index. cbv zeta. by repeat case_bool_decide. Qed.

Lemma pd_drop_trace (name : string) (df : DataFrame) : trace (pd.drop name df) = [].
Proof. unfold pd.drop. by case_bool_decide. Qed.

Section SiteEffects.
Context `{HtmlLib node} {T : CaseMap}.

Lemma scrape_generic_table_actions (soup : node) (config : table_config) :
  actions (trace (scrape_generic_table soup config)) = [].
Proof.
  unfold scrape_generic_table. destruct (_ || _); [done|].
  rewrite trace_bind, py_getitem_trace.
  by destruct (outcome (py_getitem _ _)).
Qed.

Lemma scrape_entry_actions (soup : node) (staff_data : list (list (gmap string value)))
    (entry : string * config_value) :
  actions (trace (scrape_entry soup staff_data entry)) = [].
Proof.
  destruct entry as [key v]. unfold scrape_entry.
  destruct (PyStr.endswith key "_TABLE"); [|done].
  destruct v as [| |t]; [done..|].
  rewrite trace_bind, actions_app, scrape_generic_table_actions.
  by destruct (outcome (scrape_generic_table soup t)).
Qed.

Lemma scrape_entries_actions (soup : node) (entries : site_config)
    (staff_data : list (list (gmap string value))) :
  actions (trace (scrape_entries soup staff_data entries)) = [].
Proof.
  revert staff_data. induction entries as [|entry entries IH]; intros staff_data; [done|].
  cbn [scrape_entries]. rewrite trace_bind, actions_app, scrape_entry_actions.
  destruct (outcome (scrape_entry soup staff_data entry)); [apply IH|done].
Qed.

Lemma frames_tail_trace (frames : list DataFrame) :
  trace (if (1 <? List.length frames)%nat
         then df ← pd.concat frames; df' ← pd.reset_index df; pd.drop "index" df'
         else py_getitem frames 0) = [].
Proof.
  destruct (1 <? List.length frames)%nat; [|apply py_getitem_trace].
  rewrite trace_bind, pd_concat_trace.
  destruct (outcome (pd.concat frames)) as [df|]; [|done].
  rewrite trace_bind, pd_reset_index_trace.
  destruct (outcome (pd.reset_index df)) as [df'|]; [|done].
  apply pd_drop_trace.
Qed.

Lemma parse_site_actions (net : network) (school : string) (config : site_config) :
  actions (trace (parse_site net school config))
  = if dict_has "handler" config then []
    else actions (trace (fetch net (config_url config))).
Proof.
  unfold parse_site. destruct (dict_has "handler" config); [done|].
  rewrite trace_bind, actions_app.
  destruct (outcome (fetch net (config_url config))) as [html|]; [|by rewrite app_nil_r].
  destruct (String.eqb html EmptyString); [by rewrite app_nil_r|].
  rewrite trace_bind, actions_app, scrape_entries_actions.
  destruct (outcome (scrape_entries _ _ _)) as [staff_data|]; [|by rewrite app_nil_r].
  by rewrite frames_tail_trace, app_nil_r.
Qed.

Lemma fetch_unfold (net : network) (url : option string) :
  fetch net url = fetch_html (net (default EmptyString url)) url 3 5.
Proof. by destruct url as [[|c u]|]. Qed.
End SiteEffects.

(** X12. All the requests and sleeps of [parse_site] are those of its one
    call of [fetch_html]: none for a site with a handler marker, and
    otherwise at most three requests, all to the configured URL, five
    seconds apart. Extracting the tables never touches the network. *)
Theorem parse_site_requests_are_one_fetch `{HtmlLib node} {T : CaseMap}
    (net : network) (school : string) (config : site_config) :
  actions (trace (parse_site net school config))
    = (if dict_has "handler" config then []
       else actions (trace (fetch net (config_url config))))
  ∧ ∃ k : nat,
      (k ≤ 3)%nat
      ∧ actions (trace (parse_site net school config))
        = retry_pattern (default EmptyString (config_url config)) 5 k.
Proof.
  split; [apply parse_site_actions|].
  rewrite parse_site_actions. destruct (dict_has "handler" config).
  - exists 0%nat. split; [lia|reflexivity].
  - rewrite fetch_unfold.
    destruct (fetch_html_pattern (net (default EmptyString (config_url config)))
                (config_url config) 3 5) as (k & Hk & _ & Hact).
    exists k. split; [exact Hk|exact Hact].
Qed.

(** X13. [parse_site] sends no request exactly when the site has a handler
    marker or its URL is missing or empty. *)
Theorem parse_site_no_request_iff `{HtmlLib node} {T : CaseMap}
    (net : network) (school : string) (config : site_config) :
  attempts_made (trace (parse_site net school config)) = 0%nat
  ↔ dict_has "handler" config = true
    ∨ config_url config = None ∨ config_url config = Some EmptyString.
Proof.
  rewrite <- attempts_made_actions, parse_site_actions.
  destruct (dict_has "handler" config); [by split; [left|]|].
  rewrite fetch_unfold.
  destruct (fetch_html_pattern (net (default EmptyString (config_url config)))
              (config_url config) 3 5) as (k & _ & Hzero & Hact).
  rewrite Hact, retry_pattern_attempts, Hzero. split.
  - intros [Hu|[Hu|Hmax]]; [auto..|lia].
  - intros [Hh|[Hu|Hu]]; [discriminate|auto..].
Qed.

Lemma parse_site_fetch_empty `{HtmlLib node} {T : CaseMap}
    (net : network) (school : string) (config : site_config) :
  dict_has "handler" config = false →
  outcome (fetch net (config_url config)) = Ret EmptyString →
  parse_site net school config
  = MkRun (trace (fetch net (config_url config))) (Ret pd.empty).
Proof.
  intros Hhandler Hfetch. unfold parse_site. rewrite Hhandler.
  unfold mbind, Run_bind, run_bind. rewrite Hfetch. simpl. by rewrite app_nil_r.
Qed.

(** X14. A site whose page answers with a client error costs one request:
    [parse_site] returns the empty frame after the single GET and the
    "Permanent Error" message, whatever table blocks the site configures. *)
Theorem parse_site_client_error `{HtmlLib node} {T : CaseMap}
    (net : network) (school u : string) (config : site_config) (status : Z) :
  dict_has "handler" config = false →
  config_url config = Some u → u ≠ EmptyString →
  net u 0%nat = HTTPError status → 400 ≤ status ≤ 499 →
  parse_site net school config
  = MkRun [EvGet u; EvPrint (MsgPermanentError u status)] (Ret pd.empty).
Proof.
  intros Hhandler Hurl Hu Hnet Hclient.
  assert (fetch net (config_url config)
          = MkRun [EvGet u; EvPrint (MsgPermanentError u status)] (Ret EmptyString))
    as Hfetch.
  { rewrite Hurl. unfold fetch, fetch_html_default.
    rewrite fetch_html_nonempty by done.
    change (seqZ 0 3) with [0; 1; 2]. rewrite fetch_loop_cons.
    unfold fetch_attempt. change (Z.to_nat 0) with 0%nat. rewrite Hnet.
    assert ((400 <=? status) && (status <? 500) = true) as -> by lia.
    reflexivity. }
  rewrite parse_site_fetch_empty; [by rewrite Hfetch|done|by rewrite Hfetch].
Qed.

Lemma parse_site_client_error_witness :
  parse_site (H := Sample.lib) (T := Sample.text) (λ _, Sample.not_found) "Alpha" (Sample.site "http://alpha")
  = MkRun [EvGet "http://alpha"; EvPrint (MsgPermanentError "http://alpha" 404)]
          (Ret pd.empty).
Proof.
  apply (parse_site_client_error (H := Sample.lib) (T := Sample.text) (λ _, Sample.not_found)
           "Alpha" "http://alpha" (Sample.site "http://alpha") 404).
  - reflexivity.
  - reflexivity.
  - discriminate.
  - reflexivity.
  - lia.
Defined.

(** X15. A site whose three attempts all fail with a server error or a
    transport failure yields the empty frame after three requests and two
    sleeps of five seconds; no exception leaves [parse_site]. *)
Theorem parse_site_unreachable `{HtmlLib node} {T : CaseMap}
    (net : network) (school u : string) (config : site_config) :
  dict_has "handler" config = false →
  config_url config = Some u → u ≠ EmptyString →
  (∀ k : nat, (k < 3)%nat → retryable (net u k)) →
  outcome (parse_site net school config) = Ret pd.empty
  ∧ attempts_made (trace (parse_site net school config)) = 3%nat
  ∧ sleeps (trace (parse_site net school config)) = [5; 5].
Proof.
  intros Hhandler Hurl Hu Hfail.
  assert (0 ≤ 5) as Hdelay by lia.
  destruct (fetch_loop_exhausted u (net u) 3 5 Hdelay 3 0) as [Ho Ht]; [lia..|done|].
  change (Z.of_nat 3) with 3 in Ho, Ht.
  assert (fetch net (config_url config) = fetch_loop u (net u) 3 5 (seqZ 0 3)) as Hfetch.
  { rewrite Hurl. unfold fetch, fetch_html_default. by apply fetch_html_nonempty. }
  rewrite parse_site_fetch_empty; [|done|by rewrite Hfetch].
  cbn [outcome trace]. rewrite Hfetch. split; [done|].
  rewrite <- attempts_made_actions, <- sleeps_actions, Ht. done.
Qed.

Lemma parse_site_unreachable_witness :
  outcome (parse_site (H := Sample.lib) (T := Sample.text) (λ _, Sample.down) "Alpha"
             (Sample.site "http://alpha")) = Ret pd.empty
  ∧ attempts_made (trace (parse_site (H := Sample.lib) (T := Sample.text) (λ _, Sample.down) "Alpha"
                            (Sample.site "http://alpha"))) = 3%nat
  ∧ sleeps (trace (parse_site (H := Sample.lib) (T := Sample.text) (λ _, Sample.down) "Alpha"
                     (Sample.site "http://alpha"))) = [5; 5].
Proof.
  apply (parse_site_unreachable (H := Sample.lib) (T := Sample.text) (λ _, Sample.down)
           "Alpha" "http://alpha" (Sample.site "http://alpha")).
  - reflexivity.
  - reflexivity.
  - discriminate.
  - intros k _. exact I.
Defined.

(** *** The frame of a site *)

Lemma reindex_dom (cols : gset string) (r : gmap string cell) :
  dom (reindex cols r) = cols.
Proof.
  apply set_eq. intros c. rewrite elem_of_dom. split.
  - intros [v Hv]. unfold reindex in Hv.
    apply lookup_set_to_map in Hv as (y & Hy & [= <- _]); [done|].
    by intros y y' _ _ Heq.
  - intros Hc. rewrite reindex_lookup by done. eauto.
Qed.

(** A frame is well formed when its index is [0 .. n-1] for its [n] rows
    and every row has exactly the frame's columns. *)
Lemma pd_of_records_well_formed (data : list (gmap string value)) :
  index (pd.of_records data) = seqZ 0 (Z.of_nat (List.length (rows (pd.of_records data))))
  ∧ ∀ r, r ∈ rows (pd.of_records data) → dom r = columns (pd.of_records data).
Proof.
  split.
  - cbn [pd.of_records index rows]. by rewrite length_fmap.
  - cbn [pd.of_records rows columns].
    intros r (d & -> & _)%list_elem_of_fmap. apply reindex_dom.
Qed.

Lemma pd_set_column_well_formed (name : string) (c : cell) (df : DataFrame) :
  index df = seqZ 0 (Z.of_nat (List.length (rows df))) →
  (∀ r, r ∈ rows df → dom r = columns df) →
  index (pd.set_column name c df)
    = seqZ 0 (Z.of_nat (List.length (rows (pd.set_column name c df))))
  ∧ ∀ r, r ∈ rows (pd.set_column name c df) → dom r = columns (pd.set_column name c df).
Proof.
  intros Hindex Hdom. split.
  - cbn [pd.set_column index rows]. by rewrite length_fmap.
  - cbn [pd.set_column rows columns].
    intros r (r0 & -> & Hr0)%list_elem_of_fmap.
    rewrite dom_insert_L, (Hdom r0 Hr0). by rewrite (comm_L (∪)).
Qed.

Lemma join_lengths_agree {A B} (f : DataFrame → list A) (g : DataFrame → list B)
    (frames : list DataFrame) :
  (∀ df, df ∈ frames → List.length (f df) = List.length (g df)) →
  List.length (mjoin (f <$> frames)) = List.length (mjoin (g <$> frames)).
Proof.
  induction frames as [|df frames IH]; intros Hlen; [done|].
  csimpl. rewrite !length_app.
  rewrite (Hlen df) by apply list_elem_of_here.
  f_equal. apply IH. intros df' Hdf'. apply Hlen. by right.
Qed.

Section FrameTail.
Variable frames : list DataFrame.
Variable df : DataFrame.

(** Lines 106-109, for the frames of the table blocks. *)
Hypothesis tail_returns :
  outcome (if (1 <? List.length frames)%nat
           then d ← pd.concat frames; d' ← pd.reset_index d; pd.drop "index" d'
           else py_getitem frames 0) = Ret df.

Lemma frame_tail_cases :
  frames = [df]
  ∨ (2 ≤ List.length frames)%nat
    ∧ ∃ name : string,
        (name = "index" ∨ name = "level_0")
        ∧ columns df = (⋃ (columns <$> frames) ∪ {[name]}) ∖ {["index"]}
        ∧ index df
          = seqZ 0 (Z.of_nat (List.length
              (mjoin ((λ f, reindex (⋃ (columns <$> frames)) <$> rows f) <$> frames))))
        ∧ rows df
          = delete "index" <$>
              zip_with (λ i r, <[name := Int i]> r)
                (mjoin (index <$> frames))
                (mjoin ((λ f, reindex (⋃ (columns <$> frames)) <$> rows f) <$> frames)).
Proof.
  revert tail_returns.
  destruct (1 <? List.length frames)%nat eqn:Hmany.
  - apply Nat.ltb_lt in Hmany. intros Hout. right. split; [lia|].
    destruct frames as [|f0 fs] eqn:Hframes; [simpl in Hmany; lia|].
    rewrite <- Hframes in *. revert Hout.
    assert (pd.concat frames
            = mret {| columns := ⋃ (columns <$> frames);
                      index := mjoin (index <$> frames);
                      rows := mjoin ((λ f, reindex (⋃ (columns <$> frames)) <$> rows f)
                                       <$> frames) |}) as -> by (by rewrite Hframes).
    rewrite run_bind_ret. unfold pd.reset_index. cbv zeta. cbn [columns rows index].
    set (cols := ⋃ (columns <$> frames)).
    set (name := if bool_decide ("index" ∈ cols) then "level_0" else "index").
    assert (name = "index" ∨ name = "level_0") as Hname.
    { unfold name. case_bool_decide; auto. }
    case_bool_decide as Htaken; [discriminate|].
    rewrite run_bind_ret. unfold pd.drop. cbn [columns rows index].
    case_bool_decide as Hdrop; [|discriminate].
    intros [= <-]. exists name. done.
  - apply Nat.ltb_ge in Hmany. intros Hout. left.
    destruct frames as [|f0 [|f1 fs]]; [discriminate Hout| |simpl in Hmany; lia].
    by injection Hout as ->.
Qed.

Lemma frame_tail_cells (key : string) :
  key ≠ "index" → key ≠ "level_0" →
  ∀ r, r ∈ rows df →
    ∃ f r0, f ∈ frames ∧ r0 ∈ rows f
      ∧ ∀ c, key ∈ columns f → r0 !! key = Some c → r !! key = Some c.
Proof.
  intros Hindex Hlevel r Hr.
  destruct frame_tail_cases as [->|(_ & name & Hname & _ & _ & Hrows)].
  { exists df, r. split; [apply list_elem_of_here|]. done. }
  rewrite Hrows in Hr.
  apply list_elem_of_fmap in Hr as (r1 & -> & Hr1).
  apply elem_of_zip_with in Hr1 as (i & r2 & -> & _ & Hr2).
  apply list_elem_of_join in Hr2 as (rs & Hr2 & Hrs).
  apply list_elem_of_fmap in Hrs as (f & -> & Hf).
  apply list_elem_of_fmap in Hr2 as (r0 & -> & Hr0).
  exists f, r0. split; [done|]. split; [done|].
  intros c Hkey Hc. rewrite lookup_delete_ne by done.
  rewrite lookup_insert_ne by (destruct Hname; congruence).
  rewrite reindex_lookup; [by rewrite Hc|].
  apply elem_of_union_list. exists (columns f). split; [|done].
  by apply list_elem_of_fmap_2.
Qed.

Lemma frame_tail_well_formed :
  (∀ f, f ∈ frames →
     index f = seqZ 0 (Z.of_nat (List.length (rows f)))
     ∧ ∀ r, r ∈ rows f → dom r = columns f) →
  index df = seqZ 0 (Z.of_nat (List.length (rows df)))
  ∧ ∀ r, r ∈ rows df → dom r = columns df.
Proof.
  intros Hwf.
  destruct frame_tail_cases as [->|(_ & name & Hname & Hcols & Hidx & Hrows)].
  { apply Hwf, list_elem_of_here. }
  split.
  - rewrite Hidx, Hrows, length_fmap, length_zip_with_r_eq; [done|].
    apply join_lengths_agree. intros f Hf. rewrite length_fmap.
    destruct (Hwf f Hf) as [Hi _]. rewrite Hi, length_seqZ. lia.
  - intros r Hr. rewrite Hrows in Hr.
    apply list_elem_of_fmap in Hr as (r1 & -> & Hr1).
    apply elem_of_zip_with in Hr1 as (i & r2 & -> & _ & Hr2).
    apply list_elem_of_join in Hr2 as (rs & Hr2 & Hrs).
    apply list_elem_of_fmap in Hrs as (f & -> & Hf).
    apply list_elem_of_fmap in Hr2 as (r0 & -> & Hr0).
    rewrite dom_delete_L, dom_insert_L, reindex_dom, Hcols.
    by rewrite (comm_L (∪) {[name]}).
Qed.
End FrameTail.

Section SiteFrames.
Context `{HtmlLib node} {T : CaseMap}.

Lemma scrape_entries_blocks (soup : node) (entries : site_config)
    (acc staff_data : list (list (gmap string value))) :
  outcome (scrape_entries soup acc entries) = Ret staff_data →
  ∃ blocks : list (list (gmap string value)),
    staff_data = acc ++ blocks
    ∧ Forall (λ data,
        ∃ key t records,
          (key, CTable t) ∈ entries
          ∧ PyStr.endswith key "_TABLE" = true
          ∧ outcome (scrape_generic_table soup t) = Ret records
          ∧ data = (λ d, <["staff_type" :=
                            Some (str_capitalize (PyStr.drop_last 6 key))]> d)
                     <$> records) blocks.
Proof.
  revert acc. induction entries as [|[key v] entries IH]; intros acc.
  { intros [= <-]. exists []. by rewrite app_nil_r. }
  cbn [scrape_entries scrape_entry].
  destruct (PyStr.endswith key "_TABLE") eqn:Hkey.
  - destruct v as [| |t]; [discriminate..|].
    destruct (outcome (scrape_generic_table soup t)) as [records|e] eqn:Hrecords.
    + assert (outcome (data ← scrape_generic_table soup t;
                       mret (acc ++ [(λ d, <["staff_type" :=
                               Some (str_capitalize (PyStr.drop_last 6 key))]> d)
                             <$> data]))
              = Ret (acc ++ [(λ d, <["staff_type" :=
                               Some (str_capitalize (PyStr.drop_last 6 key))]> d)
                             <$> records])) as Hentry
        by (by rewrite (outcome_bind _ _ _ Hrecords)).
      rewrite (outcome_bind _ _ _ Hentry).
      intros (blocks & -> & Hblocks)%IH.
      eexists (_ :: blocks). split; [by rewrite <- (assoc_L (++))|].
      constructor.
      * exists key, t, records. split; [apply list_elem_of_here|done].
      * eapply Forall_impl; [exact Hblocks|].
        intros data (k & t' & rs & Hin & Hrest). exists k, t', rs.
        split; [by right|done].
    + by rewrite (outcome_bind_raise _ _ e (outcome_bind_raise _ _ e Hrecords)).
  - rewrite run_bind_ret. intros (blocks & -> & Hblocks)%IH.
    exists blocks. split; [done|].
    eapply Forall_impl; [exact Hblocks|].
    intros data (k & t' & rs & Hin & Hrest). exists k, t', rs.
    split; [by right|done].
Qed.

Lemma parse_site_returns (net : network) (school : string) (config : site_config)
    (df : DataFrame) :
  outcome (parse_site net school config) = Ret df →
  df = pd.empty
  ∨ ∃ html staff_data,
      dict_has "handler" config = false
      ∧ outcome (fetch net (config_url config)) = Ret html
      ∧ html ≠ EmptyString
      ∧ outcome (scrape_entries (parse_html html) [] config) = Ret staff_data
      ∧ outcome (if (1 <? List.length
                        (pd.set_column "school" (Text school)
                           <$> (pd.of_records <$> staff_data)))%nat
                 then d ← pd.concat (pd.set_column "school" (Text school)
                                       <$> (pd.of_records <$> staff_data));
                      d' ← pd.reset_index d; pd.drop "index" d'
                 else py_getitem (pd.set_column "school" (Text school)
                                    <$> (pd.of_records <$> staff_data)) 0) = Ret df.
Proof.
  unfold parse_site. destruct (dict_has "handler" config); [by intros [= <-]; left|].
  destruct (outcome (fetch net (config_url config))) as [html|e] eqn:Hfetch.
  - rewrite (outcome_bind _ _ _ Hfetch).
    destruct (String.eqb_spec html EmptyString) as [->|Hhtml]; [by intros [= <-]; left|].
    destruct (outcome (scrape_entries (parse_html html) [] config))
      as [staff_data|e] eqn:Hentries.
    + rewrite (outcome_bind _ _ _ Hentries). intros Hout. right.
      by exists html, staff_data.
    + by rewrite (outcome_bind_raise _ _ e Hentries).
  - by rewrite (outcome_bind_raise _ _ e Hfetch).
Qed.
End SiteFrames.

(** X16. Every row of the frame [parse_site] returns carries the school
    under [school] and, under [staff_type], the capitalised label of one of
    the site's [_TABLE] keys; a configured field of either name is
    overwritten. *)
Theorem parse_site_stamps_rows `{HtmlLib node} {T : CaseMap}
    (net : network) (school : string) (config : site_config) (df : DataFrame) :
  outcome (parse_site net school config) = Ret df →
  ∀ r, r ∈ rows df →
    r !! "school" = Some (Text school)
    ∧ ∃ key v,
        (key, v) ∈ config
        ∧ PyStr.endswith key "_TABLE" = true
        ∧ r !! "staff_type"
          = Some (Text (str_capitalize (PyStr.drop_last 6 key))).
Proof.
  intros Hout r Hr.
  destruct (parse_site_returns net school config df Hout)
    as [->|(html & staff_data & _ & _ & _ & Hentries & Htail)];
    [by apply elem_of_nil in Hr|].
  destruct (scrape_entries_blocks _ _ _ _ Hentries) as (blocks & -> & Hblocks).
  rewrite app_nil_l in Htail.
  assert (∀ f r0,
    f ∈ pd.set_column "school" (Text school) <$> (pd.of_records <$> blocks) →
    r0 ∈ rows f →
    ("school" ∈ columns f ∧ r0 !! "school" = Some (Text school))
    ∧ ∃ key v, (key, v) ∈ config ∧ PyStr.endswith key "_TABLE" = true
        ∧ "staff_type" ∈ columns f
        ∧ r0 !! "staff_type" = Some (Text (str_capitalize (PyStr.drop_last 6 key))))
    as Hframes.
  { intros f r0 (g & -> & (data & -> & Hdata)%list_elem_of_fmap)%list_elem_of_fmap Hr0.
    cbn [pd.set_column pd.of_records rows columns] in Hr0 |- *.
    apply list_elem_of_fmap in Hr0 as (r1 & -> & (d & -> & Hd)%list_elem_of_fmap).
    split.
    { split; [apply elem_of_union; right; by apply elem_of_singleton|].
      apply lookup_insert_eq. }
    rewrite Forall_forall in Hblocks.
    destruct (Hblocks data Hdata) as (key & t & records & Hin & Hkey & _ & ->).
    exists key, (CTable t). split; [done|]. split; [done|].
    apply list_elem_of_fmap in Hd as (d0 & -> & Hd0).
    assert ("staff_type" ∈ (⋃ (dom <$> ((λ d,
              <["staff_type" := Some (str_capitalize (PyStr.drop_last 6 key))]> d)
              <$> records)) : gset string)) as Hcol.
    { apply elem_of_union_list. eexists. split.
      - apply list_elem_of_fmap_2, list_elem_of_fmap_2, Hd0.
      - rewrite dom_insert_L. apply elem_of_union. left. by apply elem_of_singleton. }
    split; [apply elem_of_union; by left|].
    rewrite lookup_insert_ne by done. rewrite reindex_lookup by done.
    by rewrite lookup_fmap, lookup_insert_eq. }
  split.
  - destruct (frame_tail_cells _ df Htail "school") with (r := r)
      as (f & r0 & Hf & Hr0 & Hcell); [done..|].
    destruct (Hframes f r0 Hf Hr0) as [[Hcol Hval] _]. by apply Hcell.
  - destruct (frame_tail_cells _ df Htail "staff_type") with (r := r)
      as (f & r0 & Hf & Hr0 & Hcell); [done..|].
    destruct (Hframes f r0 Hf Hr0) as [_ (key & v & Hin & Hkey & Hcol & Hval)].
    exists key, v. split; [done|]. split; [done|]. by apply Hcell.
Qed.

Lemma parse_site_stamps_rows_witness :
  ∃ df r,
    outcome (parse_site (H := Sample.lib) (T := Sample.text) Sample.up "Alpha" (Sample.site "http://alpha"))
      = Ret df
    ∧ r ∈ rows df
    ∧ r !! "school" = Some (Text "Alpha")
    ∧ ∃ key v,
        (key, v) ∈ Sample.site "http://alpha"
        ∧ PyStr.endswith key "_TABLE" = true
        ∧ r !! "staff_type" = Some (Text (str_capitalize (CaseMap := Sample.text) (PyStr.drop_last 6 key))).
Proof.
  destruct (outcome (parse_site (H := Sample.lib) (T := Sample.text) Sample.up "Alpha"
                       (Sample.site "http://alpha"))) as [df|e] eqn:Hout;
    [|vm_compute in Hout; discriminate Hout].
  destruct (rows df) as [|r rs] eqn:Hrows.
  { vm_compute in Hout. injection Hout as <-. discriminate Hrows. }
  exists df, r. split; [reflexivity|].
  assert (r ∈ rows df) as Hr by (rewrite Hrows; apply list_elem_of_here).
  split; [exact Hr|].
  exact (parse_site_stamps_rows (H := Sample.lib) (T := Sample.text) Sample.up "Alpha"
           (Sample.site "http://alpha") df Hout r Hr).
Defined.

(** X17. The frame [parse_site] returns is well formed on every path: its
    index is [0 .. n-1] for its [n] rows, whether one block was passed
    through or several were concatenated, and every row has a cell for
    exactly the frame's columns. *)
Theorem parse_site_frame_well_formed `{HtmlLib node} {T : CaseMap}
    (net : network) (school : string) (config : site_config) (df : DataFrame) :
  outcome (parse_site net school config) = Ret df →
  index df = seqZ 0 (Z.of_nat (List.length (rows df)))
  ∧ ∀ r, r ∈ rows df → dom r = columns df.
Proof.
  intros Hout.
  destruct (parse_site_returns net school config df Hout)
    as [->|(html & staff_data & _ & _ & _ & _ & Htail)].
  { split; [done|]. intros r Hr. by apply elem_of_nil in Hr. }
  apply (frame_tail_well_formed _ df Htail).
  intros f (g & -> & (data & -> & _)%list_elem_of_fmap)%list_elem_of_fmap.
  destruct (pd_of_records_well_formed data) as [Hindex Hdom].
  by apply pd_set_column_well_formed.
Qed.

Lemma parse_site_frame_well_formed_witness :
  ∃ df,
    outcome (parse_site (H := Sample.lib) (T := Sample.text) Sample.up "State" Cases.two_blocks) = Ret df
    ∧ index df = [0; 1; 2]
    ∧ List.length (rows df) = 3%nat.
Proof.
  destruct (outcome (parse_site (H := Sample.lib) (T := Sample.text) Sample.up "State" Cases.two_blocks))
    as [df|e] eqn:Hout; [|vm_compute in Hout; discriminate Hout].
  exists df. split; [reflexivity|].
  destruct (parse_site_frame_well_formed (H := Sample.lib) (T := Sample.text) Sample.up "State"
              Cases.two_blocks df Hout)
    as [Hindex _].
  assert (List.length (rows df) = 3%nat) as Hlen.
  { vm_compute in Hout. injection Hout as <-. reflexivity. }
  split; [|exact Hlen]. rewrite Hindex, Hlen. reflexivity.
Defined.

Section SingleBlock.
Context `{HtmlLib node} {T : CaseMap}.

Lemma scrape_entries_skip (soup : node) (before rest : site_config)
    (acc : list (list (gmap string value))) :
  (∀ key v, (key, v) ∈ before → PyStr.endswith key "_TABLE" = false) →
  scrape_entries soup acc (before ++ rest) = scrape_entries soup acc rest.
Proof.
  induction before as [|[key v] before IH]; intros Hkeys; [done|].
  cbn [app scrape_entries scrape_entry].
  rewrite (Hkeys key v) by apply list_elem_of_here.
  rewrite run_bind_ret. apply IH. intros k w Hin. apply (Hkeys k w). by right.
Qed.

Lemma scrape_entries_count (soup : node) (entries : site_config)
    (acc staff_data : list (list (gmap string value))) :
  outcome (scrape_entries soup acc entries) = Ret staff_data →
  List.length staff_data
  = (List.length acc
     + List.length (List.filter (λ e, PyStr.endswith e.1 "_TABLE") entries))%nat.
Proof.
  revert acc. induction entries as [|[key v] entries IH]; intros acc.
  { intros [= <-]. simpl. lia. }
  cbn [scrape_entries scrape_entry List.filter fst].
  destruct (PyStr.endswith key "_TABLE") eqn:Hkey.
  - destruct v as [| |t]; [discriminate..|].
    destruct (outcome (scrape_generic_table soup t)) as [records|e] eqn:Hrecords.
    + assert (outcome (data ← scrape_generic_table soup t;
                       mret (acc ++ [(λ d, <["staff_type" :=
                               Some (str_capitalize (PyStr.drop_last 6 key))]> d)
                             <$> data]))
              = Ret (acc ++ [(λ d, <["staff_type" :=
                               Some (str_capitalize (PyStr.drop_last 6 key))]> d)
                             <$> records])) as Hentry
        by (by rewrite (outcome_bind _ _ _ Hrecords)).
      rewrite (outcome_bind _ _ _ Hentry). intros Hrest%IH.
      rewrite Hrest, length_app. simpl. lia.
    + by rewrite (outcome_bind_raise _ _ e (outcome_bind_raise _ _ e Hrecords)).
  - rewrite run_bind_ret. apply IH.
Qed.
End SingleBlock.

(** X18. A site with exactly one [_TABLE] block, wherever the key stands in
    the mapping, gets that block's records as its frame: one row per record,
    with [staff_type] set to the block's label and [school] to the school,
    passed through without concatenation. *)
Theorem parse_site_single_block `{HtmlLib node} {T : CaseMap}
    (net : network) (school html key : string) (config before after : site_config)
    (t : table_config) (records : list (gmap string value)) :
  dict_has "handler" config = false →
  outcome (fetch net (config_url config)) = Ret html → html ≠ EmptyString →
  config = before ++ (key, CTable t) :: after →
  PyStr.endswith key "_TABLE" = true →
  (∀ k v, (k, v) ∈ before ++ after → PyStr.endswith k "_TABLE" = false) →
  outcome (scrape_generic_table (parse_html html) t) = Ret records →
  outcome (parse_site net school config)
  = Ret (pd.set_column "school" (Text school)
           (pd.of_records
              ((λ d, <["staff_type" := Some (str_capitalize (PyStr.drop_last 6 key))]> d)
                 <$> records)))
  ∧ ∀ df, outcome (parse_site net school config) = Ret df →
          List.length (rows df) = List.length records.
Proof.
  intros Hhandler Hfetch Hhtml Hconfig Hkey Hothers Hrecords.
  assert (outcome (parse_site net school config)
          = Ret (pd.set_column "school" (Text school)
                   (pd.of_records
                      ((λ d, <["staff_type" :=
                                 Some (str_capitalize (PyStr.drop_last 6 key))]> d)
                         <$> records)))) as Hout.
  { unfold parse_site. rewrite Hhandler, (outcome_bind _ _ _ Hfetch).
    assert (String.eqb html EmptyString = false) as -> by (by apply String.eqb_neq).
    assert (outcome (scrape_entries (parse_html html) [] config)
            = Ret [(λ d, <["staff_type" :=
                             Some (str_capitalize (PyStr.drop_last 6 key))]> d)
                     <$> records]) as Hentries.
    { rewrite Hconfig, scrape_entries_skip
        by (intros k v Hin; apply (Hothers k v), elem_of_app; by left).
      cbn [scrape_entries scrape_entry]. rewrite Hkey.
      assert (outcome (data ← scrape_generic_table (parse_html html) t;
                       mret ([] ++ [(λ d, <["staff_type" :=
                               Some (str_capitalize (PyStr.drop_last 6 key))]> d)
                             <$> data]))
              = Ret [(λ d, <["staff_type" :=
                               Some (str_capitalize (PyStr.drop_last 6 key))]> d)
                             <$> records]) as Hentry
        by (by rewrite (outcome_bind _ _ _ Hrecords)).
      rewrite (outcome_bind _ _ _ Hentry).
      rewrite scrape_entries_no_tables; [done|].
      intros k v Hin. apply (Hothers k v), elem_of_app. by right. }
    by rewrite (outcome_bind _ _ _ Hentries). }
  split; [exact Hout|]. intros df Hdf. rewrite Hout in Hdf. injection Hdf as <-.
  cbn [pd.set_column pd.of_records rows]. by rewrite !length_fmap.
Qed.

Lemma parse_site_single_block_witness :
  outcome (parse_site (H := Sample.lib) (T := Sample.text) Sample.up "Alpha" (Sample.site "http://alpha"))
  = Ret (pd.set_column "school" (Text "Alpha")
           (pd.of_records
              ((λ d, <["staff_type" := Some "Coaches"]> d)
                 <$> (extract_row (H := Sample.lib) (T := Sample.text) (Sample.table None)
                        <$> [Sample.jane; Sample.joe])))).
Proof.
  destruct (parse_site_single_block (H := Sample.lib) (T := Sample.text) Sample.up "Alpha"
              "<html>...</html>" "COACHES_TABLE" (Sample.site "http://alpha")
              [("url", CStr "http://alpha")] [] (Sample.table None)
              (extract_row (H := Sample.lib) (T := Sample.text) (Sample.table None)
                 <$> [Sample.jane; Sample.joe])) as [Hout _].
  - reflexivity.
  - reflexivity.
  - discriminate.
  - reflexivity.
  - reflexivity.
  - intros k v Hin. apply list_elem_of_singleton in Hin.
    injection Hin as -> ->. reflexivity.
  - reflexivity.
  - exact Hout.
Defined.

(** X19. With two or more [_TABLE] blocks the returned frame never has a
    column named [index]: [reset_index().drop(columns='index')] removes it,
    so a configured field of that name is lost (no row keeps a cell for
    it), which the single-block path does not do. *)
Theorem parse_site_many_blocks_drop_index `{HtmlLib node} {T : CaseMap}
    (net : network) (school : string) (config : site_config) (df : DataFrame) :
  (2 ≤ List.length (List.filter (λ e, PyStr.endswith e.1 "_TABLE") config))%nat →
  outcome (parse_site net school config) = Ret df →
  ("index" ∉ columns df) ∧ (∀ r, r ∈ rows df → r !! "index" = None).
Proof.
  intros Hmany Hout.
  destruct (parse_site_returns net school config df Hout)
    as [->|(html & staff_data & _ & _ & _ & Hentries & Htail)].
  { split; [apply not_elem_of_empty|]. intros r Hr. by apply elem_of_nil in Hr. }
  apply scrape_entries_count in Hentries. simpl in Hentries.
  destruct (frame_tail_cases _ df Htail) as [Hone|(_ & name & _ & Hcols & _ & Hrows)].
  { apply (f_equal List.length) in Hone. rewrite !length_fmap in Hone.
    simpl in Hone. lia. }
  split.
  - rewrite Hcols. intros [_ Hnot]%elem_of_difference.
    apply Hnot. by apply elem_of_singleton.
  - intros r Hr. rewrite Hrows in Hr.
    apply list_elem_of_fmap in Hr as (r1 & -> & _). apply lookup_delete_eq.
Qed.

Lemma parse_site_many_blocks_drop_index_witness :
  ∃ df,
    outcome (parse_site (H := Sample.lib) (T := Sample.text) Sample.up "State" Cases.indexed) = Ret df
    ∧ ("index" ∉ columns df)
    ∧ (∀ r, r ∈ rows df → r !! "index" = None).
Proof.
  destruct (outcome (parse_site (H := Sample.lib) (T := Sample.text) Sample.up "State" Cases.indexed))
    as [df|e] eqn:Hout; [|vm_compute in Hout; discriminate Hout].
  exists df. split; [reflexivity|].
  apply (parse_site_many_blocks_drop_index (H := Sample.lib) (T := Sample.text) Sample.up "State"
           Cases.indexed df);
    [|exact Hout].
  vm_compute. lia.
Defined.

(** ** Orchestrator *)

Section RunFacts.
Context `{HtmlLib node} {T : CaseMap}.
Variable net : network.

Lemma main_outcome (completed : list (string * site_config)) :
  main net completed
  = MkRun
      ((report net <$> completed)
         ++ [EvPrint (MsgDone (List.length (succeeded net completed)))]
         ++ trace (save_csv (succeeded net completed) "wbb_coaches.csv"))
      (outcome (save_csv (succeeded net completed) "wbb_coaches.csv")).
Proof.
  unfold main. rewrite scrape_all_report. rewrite app_nil_l.
  unfold mbind, Run_bind, run_bind. cbn [outcome trace].
  by rewrite <- (assoc_L (++)).
Qed.

Lemma save_csv_frame (results : list DataFrame) (out_path : string) :
  results ≠ [] →
  save_csv results out_path
  = MkRun
      [EvPrint (MsgSaved
         (List.length (mjoin ((λ df, reindex (⋃ (columns <$> results)) <$> rows df)
                                <$> results))) out_path)]
      (Ret (Some {| columns := ⋃ (columns <$> results);
                    index := mjoin (index <$> results);
                    rows := mjoin ((λ df, reindex (⋃ (columns <$> results)) <$> rows df)
                                     <$> results) |})).
Proof. intros Hne. by destruct results. Qed.

Lemma join_reindexed_length (cols : gset string) (results : list DataFrame) :
  List.length (mjoin ((λ df, reindex cols <$> rows df) <$> results))
  = sum_list (List.length ∘ rows <$> results).
Proof.
  rewrite length_join, <- list_fmap_compose. f_equal.
  apply list_fmap_ext. intros i df _. cbn [compose]. by rewrite length_fmap.
Qed.
End RunFacts.

(** X20. Collecting and merging never raise, whatever the sites and the
    network do (writing the file itself is not modelled). The run writes no
    file exactly when no site's task returned a frame;
    otherwise the frame written has the union of the collected frames'
    columns and as many rows as they have together, and that number is the
    one printed. *)
Theorem main_always_completes `{HtmlLib node} {T : CaseMap}
    (net : network) (completed : list (string * site_config)) :
  ∃ written : option DataFrame,
    outcome (main net completed) = Ret written
    ∧ (written = None ↔ succeeded net completed = [])
    ∧ (written = None → EvPrint MsgNoResults ∈ trace (main net completed))
    ∧ ∀ global, written = Some global →
        columns global = ⋃ (columns <$> succeeded net completed)
        ∧ List.length (rows global)
          = sum_list (List.length ∘ rows <$> succeeded net completed)
        ∧ EvPrint (MsgSaved (List.length (rows global)) "wbb_coaches.csv")
            ∈ trace (main net completed).
Proof.
  rewrite main_outcome. cbn [outcome trace].
  destruct (succeeded net completed) as [|df results] eqn:Hsucc.
  - exists None. split; [done|]. split; [done|]. split; [|done].
    intros _. rewrite !elem_of_app. right. right. apply list_elem_of_here.
  - rewrite save_csv_frame by done. cbn [outcome trace].
    eexists. split; [reflexivity|]. split; [by split|]. split; [done|].
    intros global [= <-]. cbn [columns rows]. split; [done|].
    split;
      [exact (join_reindexed_length (⋃ (columns <$> df :: results)) (df :: results))|].
    rewrite !elem_of_app. right. right. apply list_elem_of_here.
Qed.

(** X21. A frame without rows still counts as a result: when every site
    returns an empty frame, as every site with a handler marker does, and
    there is at least one site, [save_csv] does not report that there is
    nothing to save but writes a table of zero rows. *)
Theorem main_saves_empty_frames `{HtmlLib node} {T : CaseMap}
    (net : network) (completed : list (string * site_config)) :
  completed ≠ [] →
  (∀ site, site ∈ completed →
     ∃ df, outcome (parse_site net site.1 site.2) = Ret df ∧ rows df = []) →
  ∃ global : DataFrame,
    outcome (main net completed) = Ret (Some global)
    ∧ rows global = []
    ∧ EvPrint (MsgSaved 0 "wbb_coaches.csv") ∈ trace (main net completed)
    ∧ EvPrint (MsgDone (List.length completed)) ∈ trace (main net completed).
Proof.
  intros Hsites Hempty.
  assert (List.length (succeeded net completed) = List.length completed
          ∧ ∀ df, df ∈ succeeded net completed → rows df = []) as [Hlen Hrows].
  { clear Hsites. induction completed as [|site completed IH]; [by split; [|intros ? ?%elem_of_nil]|].
    rewrite succeeded_cons.
    destruct (Hempty site) as (df & Hdf & Hnone); [apply list_elem_of_here|].
    destruct IH as [IHlen IHrows]; [intros s Hs; apply Hempty; by right|].
    unfold succeeded at 1 3. cbn [omap list_omap]. rewrite Hdf. cbn [app].
    split; [simpl; by rewrite IHlen|].
    intros d [->|Hd]%elem_of_cons; [done|by apply IHrows]. }
  rewrite main_outcome. cbn [outcome trace].
  destruct (succeeded net completed) as [|df results] eqn:Hsucc.
  { destruct completed; [done|discriminate Hlen]. }
  rewrite save_csv_frame by done. cbn [outcome trace].
  assert (mjoin ((λ d, reindex (⋃ (columns <$> df :: results)) <$> rows d)
                   <$> df :: results) = []) as Hnil.
  { apply length_zero_iff_nil. rewrite join_reindexed_length.
    clear Hlen Hsucc. induction (df :: results) as [|d ds IH]; [done|].
    cbn [fmap list_fmap sum_list sum_list_with compose].
    rewrite (Hrows d) by apply list_elem_of_here.
    apply IH. intros d' Hd'. apply Hrows. by right. }
  eexists. split; [reflexivity|]. cbn [rows]. split; [exact Hnil|].
  rewrite Hnil, <- Hlen. cbn [List.length].
  split; rewrite !elem_of_app.
  - right. right. apply list_elem_of_here.
  - right. left. apply list_elem_of_here.
Qed.

Lemma main_saves_empty_frames_witness :
  ∃ global : DataFrame,
    outcome (main (H := Sample.lib) (T := Sample.text) Sample.up Cases.skipped) = Ret (Some global)
    ∧ rows global = []
    ∧ EvPrint (MsgSaved 0 "wbb_coaches.csv")
        ∈ trace (main (H := Sample.lib) (T := Sample.text) Sample.up Cases.skipped)
    ∧ EvPrint (MsgDone 2)
        ∈ trace (main (H := Sample.lib) (T := Sample.text) Sample.up Cases.skipped).
Proof.
  apply (main_saves_empty_frames (H := Sample.lib) (T := Sample.text) Sample.up Cases.skipped).
  - discriminate.
  - intros site Hsite. exists pd.empty.
    apply elem_of_cons in Hsite as [->|Hsite]; [by split|].
    apply list_elem_of_singleton in Hsite as ->. by split.
Defined.

Lemma union_list_permutation (Xs Ys : list (gset string)) :
  Xs ≡ₚ Ys → ⋃ Xs = ⋃ Ys.
Proof.
  induction 1 as [|X Xs Ys _ IH|X Y Xs|Xs Ys Zs _ IH1 _ IH2]; simpl.
  - done.
  - by rewrite IH.
  - by rewrite !(assoc_L (∪)), (comm_L (∪) Y X).
  - by rewrite IH1.
Qed.

Lemma concat_rows_permutation (first second : list DataFrame) :
  first ≡ₚ second →
  ⋃ (columns <$> first) = ⋃ (columns <$> second)
  ∧ mjoin ((λ df, reindex (⋃ (columns <$> first)) <$> rows df) <$> first)
    ≡ₚ mjoin ((λ df, reindex (⋃ (columns <$> second)) <$> rows df) <$> second).
Proof.
  intros Hperm.
  assert (⋃ (columns <$> first) = ⋃ (columns <$> second)) as Hcols.
  { apply union_list_permutation. by rewrite Hperm. }
  split; [exact Hcols|]. rewrite Hcols. by rewrite Hperm.
Qed.

(** X22. The order in which the sites complete changes the order of the
    result only: for two completion orders of the same sites, the collected
    frames are the same up to order, either both runs write nothing or both
    write a file, and the two files have the same columns and the same rows
    up to order. *)
Theorem main_order_independent `{HtmlLib node} {T : CaseMap}
    (net : network) (first second : list (string * site_config)) :
  first ≡ₚ second →
  succeeded net first ≡ₚ succeeded net second
  ∧ (outcome (main net first) = Ret None ↔ outcome (main net second) = Ret None)
  ∧ ∀ g1 g2,
      outcome (main net first) = Ret (Some g1) →
      outcome (main net second) = Ret (Some g2) →
      columns g1 = columns g2 ∧ rows g1 ≡ₚ rows g2.
Proof.
  intros Hperm.
  assert (succeeded net first ≡ₚ succeeded net second) as Hsucc.
  { unfold succeeded. by rewrite Hperm. }
  split; [exact Hsucc|].
  rewrite !main_outcome. cbn [outcome].
  destruct (succeeded net first) as [|d1 r1] eqn:H1;
    destruct (succeeded net second) as [|d2 r2] eqn:H2.
  - split; [done|]. intros g1 g2 Hg1. discriminate Hg1.
  - by apply Permutation_nil_cons in Hsucc.
  - symmetry in Hsucc. by apply Permutation_nil_cons in Hsucc.
  - rewrite !save_csv_frame by done. cbn [outcome]. split; [by split|].
    intros g1 g2 [= <-] [= <-].
    exact (concat_rows_permutation (d1 :: r1) (d2 :: r2) Hsucc).
Qed.

Lemma main_order_independent_witness :
  succeeded (H := Sample.lib) (T := Sample.text) Sample.up Sample.finished
  ≡ₚ succeeded (H := Sample.lib) (T := Sample.text) Sample.up Sample.sites.
Proof.
  destruct (main_order_independent (H := Sample.lib) (T := Sample.text) Sample.up
              Sample.finished Sample.sites) as [Hsucc _].
  - apply (reverse_Permutation Sample.sites).
  - exact Hsucc.
Defined.

